(** * The API gateway's request path (api-gateway/src/index.js)

    A shallow embedding of the circuit breaker, the instance selector, the
    admission limiter and the router of the gateway, with the properties of
    the specification stated over it.

    Conventions.
    - JavaScript numbers that hold counters and epoch milliseconds are [Z].
    - [null] is [None]; [null] used in arithmetic coerces to [0] ([toNumber]).
    - The objects [circuitBreakers] and [serviceLoads] and the health [Map]
      are finite maps keyed by strings ([gmap string _]); a per-service load
      [Map], whose iteration order matters, is an insertion-ordered
      association list.
    - [Date.now()], the registry's reply and the backends' replies are inputs
      of the functions that consult them.
    - A request is followed on its own: other requests may interleave at
      every [await] of the source. *)

From Stdlib Require Import ZArith String List Bool Lia.
From Stdlib Require Import DecimalString.
From stdpp Require Import base option list gmap strings.

Local Open Scope string_scope.
Local Open Scope Z_scope.

(** ** Configuration (index.js, lines 16-24) *)

Record Config := {
  SERV_REST_PORT : string;
  SERVER_TIMEOUT_MS : Z;
  MAX_CONCURRENT_REQUESTS : Z;
  ERROR_THRESHOLD : Z;
  ERROR_TIMEOUT : Z;
  CRITICAL_LOAD_THRESHOLD : Z;
  REROUTE_THRESHOLD : Z
}.

(** The values used when the environment sets nothing. *)
Definition default_config : Config := {|
  SERV_REST_PORT := "5000";
  SERVER_TIMEOUT_MS := 5000;
  MAX_CONCURRENT_REQUESTS := 100;
  ERROR_THRESHOLD := 3;
  ERROR_TIMEOUT := 17500;
  CRITICAL_LOAD_THRESHOLD := 60;
  REROUTE_THRESHOLD := 2
|}.

(** ** Circuit breaker records (lines 91-108) *)

Inductive BreakerState := CLOSED | OPEN | HALF_OPEN.

Record Breaker := {
  failures : Z;
  lastFailure : option Z;
  state : BreakerState;
  reroutes : Z;
  lastReroute : option Z;
  consecutiveReroutes : Z
}.

Definition initial_breaker : Breaker := {|
  failures := 0;
  lastFailure := None;
  state := CLOSED;
  reroutes := 0;
  lastReroute := None;
  consecutiveReroutes := 0
|}.

(** [x - null] is [x - 0] in JavaScript. *)
Definition toNumber (t : option Z) : Z :=
  match t with
  | Some n => n
  | None => 0
  end.

(** Truthiness of a timestamp that may be [null]: [null] and [0] are falsy. *)
Definition truthy_time (t : option Z) : bool :=
  match t with
  | Some n => negb (n =? 0)
  | None => false
  end.

Section Breaker.

Context (cfg : Config).

(** [checkCircuitBreaker] (lines 248-262), on the record of the service. *)
Definition checkCircuitBreaker (now : Z) (breaker : Breaker) : Breaker * bool :=
  match state breaker with
  | OPEN =>
      if now - toNumber (lastFailure breaker) >? ERROR_TIMEOUT cfg then
        ({| failures := failures breaker;
            lastFailure := lastFailure breaker;
            state := HALF_OPEN;
            reroutes := reroutes breaker;
            lastReroute := lastReroute breaker;
            consecutiveReroutes := 0 |}, true)
      else (breaker, false)
  | _ => (breaker, true)
  end.

(** [recordReroute] (lines 264-287). *)
Definition recordReroute (now : Z) (breaker : Breaker) : Breaker * bool :=
  let consecutive :=
    if truthy_time (lastReroute breaker)
       && (now - toNumber (lastReroute breaker) <=? 5000)
    then consecutiveReroutes breaker + 1
    else 1 in
  if consecutive >=? REROUTE_THRESHOLD cfg then
    ({| failures := failures breaker;
        lastFailure := Some now;
        state := OPEN;
        reroutes := reroutes breaker + 1;
        lastReroute := Some now;
        consecutiveReroutes := consecutive |}, false)
  else
    ({| failures := failures breaker;
        lastFailure := lastFailure breaker;
        state := state breaker;
        reroutes := reroutes breaker + 1;
        lastReroute := Some now;
        consecutiveReroutes := consecutive |}, true).

(** [recordFailure]. The source declares it twice (lines 289-304 and
    502-518) with the same statements on the record; the later declaration
    is the one in force, and it also publishes the state to the gauge when
    it opens the breaker ([recordFailureOf] below; the boolean returned here
    says that this branch ran). The statements run in the source's order: the
    counter and [lastFailure] are assigned first, so the comparison with
    [ERROR_TIMEOUT] reads the [lastFailure] just assigned. *)
Definition recordFailure (now : Z) (breaker : Breaker) : Breaker * bool :=
  let failures1 := failures breaker + 1 in
  let lastFailure1 := Some now in
  if failures1 >=? ERROR_THRESHOLD cfg then
    if now - toNumber lastFailure1 <=? ERROR_TIMEOUT cfg then
      ({| failures := failures1;
          lastFailure := lastFailure1;
          state := OPEN;
          reroutes := reroutes breaker;
          lastReroute := lastReroute breaker;
          consecutiveReroutes := consecutiveReroutes breaker |}, true)
    else
      ({| failures := 1;
          lastFailure := lastFailure1;
          state := state breaker;
          reroutes := reroutes breaker;
          lastReroute := lastReroute breaker;
          consecutiveReroutes := consecutiveReroutes breaker |}, false)
  else
    ({| failures := failures1;
        lastFailure := lastFailure1;
        state := state breaker;
        reroutes := reroutes breaker;
        lastReroute := lastReroute breaker;
        consecutiveReroutes := consecutiveReroutes breaker |}, false).

(** [recordSuccess] (lines 306-315). *)
Definition recordSuccess (breaker : Breaker) : Breaker :=
  match state breaker with
  | HALF_OPEN =>
      {| failures := 0;
         lastFailure := None;
         state := CLOSED;
         reroutes := reroutes breaker;
         lastReroute := lastReroute breaker;
         consecutiveReroutes := 0 |}
  | _ => breaker
  end.

(** The four operations the source defines on a record, as events. *)
Inductive BreakerOp :=
| OpGate (now : Z)
| OpSuccess
| OpFailure (now : Z)
| OpReroute (now : Z).

Definition apply_op (op : BreakerOp) (breaker : Breaker) : Breaker :=
  match op with
  | OpGate now => fst (checkCircuitBreaker now breaker)
  | OpSuccess => recordSuccess breaker
  | OpFailure now => fst (recordFailure now breaker)
  | OpReroute now => fst (recordReroute now breaker)
  end.

(** A sequence of dispatch attempts on one record, with the answer to
    each. *)
Fixpoint gate_all (times : list Z) (breaker : Breaker) : Breaker * list bool :=
  match times with
  | [] => (breaker, [])
  | now :: rest =>
      let '(b1, ok) := checkCircuitBreaker now breaker in
      let '(b2, oks) := gate_all rest b1 in
      (b2, ok :: oks)
  end.

End Breaker.

(** ** JSON values, requests and responses *)

#[warnings="-register-all"]
Inductive Json :=
| JNull
| JBool (b : bool)
| JNum (n : Z)
| JStr (s : string)
| JArr (items : list Json)
| JObj (fields : list (string * Json)).

(** [data?.detail]: [undefined] ([None]) unless [data] is an object with
    that key (an object lists a key once). *)
Definition detail_of (data : Json) : option Json :=
  match data with
  | JObj fields =>
      snd <$> List.find (fun kv => bool_decide (fst kv = "detail")) fields
  | _ => None
  end.

(** Truthiness, as [||] tests it; [None] is [undefined]. *)
Definition truthy (v : option Json) : bool :=
  match v with
  | None | Some JNull => false
  | Some (JBool b) => b
  | Some (JNum n) => negb (n =? 0)
  | Some (JStr s) => negb (bool_decide (s = ""))
  | Some (JArr _) | Some (JObj _) => true
  end.

Record Request := {
  method : string;
  url : string;
  body : Json
}.

Record Response := {
  status_code : Z;
  payload : Json
}.

(** [res.status(code).json({ detail: ... })]. *)
Definition json_detail (code : Z) (detail : Json) : Response :=
  {| status_code := code; payload := JObj [("detail", detail)] |}.

(** ** The load view (lines 111-114, 374-395) *)

(** The body of a backend's [/metrics] reply, read only through
    [requestsPerSecond]; [None] there is a missing (or [null]) field. *)
Record LoadData := {
  requestsPerSecond : option Z
}.

(** A JavaScript [Map] from instance to the last body stored for it ([None]
    is a [null] body). Iteration follows first insertion. *)
Abbreviation LoadMap := (list (string * option LoadData)).

(** [Map.prototype.set]: an existing key keeps its place. *)
Fixpoint map_set (k : string) (v : option LoadData) (m : LoadMap) : LoadMap :=
  match m with
  | [] => [(k, v)]
  | (k', v') :: rest =>
      if bool_decide (k' = k) then (k', v) :: rest
      else (k', v') :: map_set k v rest
  end.

(** What a [/metrics] request comes back with: a 2xx body, or an error
    ([axios.get] throws). *)
Inductive MetricsReply :=
| MetricsOk (data : option LoadData)
| MetricsFailed.

(** ** The gateway's mutable state *)

Record Gateway := {
  circuitBreakers : gmap string Breaker;
  serviceLoads : gmap string LoadMap;
  healthStatus : gmap string bool;
  circuitBreakerStatus : gmap string Z
}.

(** The state the module starts with (lines 91-114, 203). *)
Definition initial_gateway : Gateway := {|
  circuitBreakers :=
    <["serviceA" := initial_breaker]> (<["serviceB" := initial_breaker]> ∅);
  serviceLoads := <["serviceA" := []]> (<["serviceB" := []]> ∅);
  healthStatus := ∅;
  circuitBreakerStatus := ∅
|}.

Definition set_circuitBreakers (cbs : gmap string Breaker) (g : Gateway) : Gateway :=
  {| circuitBreakers := cbs;
     serviceLoads := serviceLoads g;
     healthStatus := healthStatus g;
     circuitBreakerStatus := circuitBreakerStatus g |}.

Definition set_serviceLoads (sl : gmap string LoadMap) (g : Gateway) : Gateway :=
  {| circuitBreakers := circuitBreakers g;
     serviceLoads := sl;
     healthStatus := healthStatus g;
     circuitBreakerStatus := circuitBreakerStatus g |}.

Definition set_circuitBreakerStatus (gauge : gmap string Z) (g : Gateway) : Gateway :=
  {| circuitBreakers := circuitBreakers g;
     serviceLoads := serviceLoads g;
     healthStatus := healthStatus g;
     circuitBreakerStatus := gauge |}.

(** [healthMonitor.isHealthy] (lines 238-240): a missing key is [false]. *)
Definition isHealthy (g : Gateway) (serviceType instance : string) : bool :=
  default false (healthStatus g !! (serviceType +:+ "-" +:+ instance)).

(** ** Load sampling and instance selection (lines 374-439) *)

(** [a[1]?.requestsPerSecond ?? Infinity]; [None] stands for [Infinity]. *)
Definition effective_load (v : option LoadData) : option Z :=
  match v with
  | Some load => requestsPerSecond load
  | None => None
  end.

(** The comparator [loadA - loadB] of the sort, by its sign. Two unknown
    loads give [Infinity - Infinity], which is [NaN] and sorts as equal. *)
Definition compare_load (a b : string * option LoadData) : comparison :=
  match effective_load (snd a), effective_load (snd b) with
  | Some x, Some y => x ?= y
  | Some _, None => Lt
  | None, Some _ => Gt
  | None, None => Eq
  end.

(** [Array.prototype.sort] is stable; with this comparator its result is
    the one of the stable insertion sort. *)
Fixpoint insert_by_load (e : string * option LoadData) (l : LoadMap) : LoadMap :=
  match l with
  | [] => [e]
  | y :: ys =>
      match compare_load e y with
      | Gt => y :: insert_by_load e ys
      | _ => e :: y :: ys
      end
  end.

Definition sort_by_load (l : LoadMap) : LoadMap :=
  foldr insert_by_load [] l.

(** [updateServiceLoad] (lines 374-395). Whatever is thrown inside is caught
    and answered with [null]: the failed request, [.set] on a load map that
    does not exist for this key, and reading [requestsPerSecond] of a [null]
    body, which happens after the body was stored. The comparison with
    [CRITICAL_LOAD_THRESHOLD] only writes to the log. *)
Definition updateServiceLoad (serviceType instance : string)
    (reply : MetricsReply) (g : Gateway) : Gateway * option LoadData :=
  match reply with
  | MetricsFailed => (g, None)
  | MetricsOk load =>
      match serviceLoads g !! serviceType with
      | None => (g, None)
      | Some m =>
          let g' :=
            set_serviceLoads
              (<[serviceType := map_set instance load m]> (serviceLoads g)) g in
          match load with
          | None => (g', None)
          | Some data => (g', Some data)
          end
      end
  end.

(** The [Promise.all] of line 416: the samples, in the order their replies
    arrive. *)
Definition updateAll (serviceType : string)
    (samples : list (string * MetricsReply)) (g : Gateway) : Gateway :=
  fold_left
    (fun acc sample => fst (updateServiceLoad serviceType sample.1 sample.2 acc))
    samples g.

(** [loads[0]?.[0] || healthyInstances[0]]: the empty string is falsy. *)
Definition first_or (loads : LoadMap) (healthyInstances : list string) : option string :=
  match loads with
  | (instance, _) :: _ =>
      if bool_decide (instance = "") then head healthyInstances
      else Some instance
  | [] => head healthyInstances
  end.

(** [selectServiceInstance] (lines 398-439); [None] is [null]. [samples]
    are the replies to the [/metrics] requests the call sends to the healthy
    instances. *)
Definition selectServiceInstance (serviceType : string) (instances : list string)
    (samples : list (string * MetricsReply)) (g : Gateway) : Gateway * option string :=
  match instances with
  | [] => (g, None)
  | _ =>
      let healthyInstances := List.filter (isHealthy g serviceType) instances in
      match healthyInstances with
      | [] => (g, head instances)
      | _ =>
          let g' := updateAll serviceType samples g in
          match serviceLoads g' !! serviceType with
          | None => (g', head healthyInstances)
          | Some serviceLoadMap =>
              let loads :=
                sort_by_load
                  (List.filter
                     (fun entry => bool_decide (entry.1 ∈ healthyInstances))
                     serviceLoadMap) in
              (g', first_or loads healthyInstances)
          end
      end
  end.

(** ** The HTTP client *)

(** What the backend does with a forwarded request, as the client sees it
    once it has followed redirects. *)
Inductive Backend :=
| Responded (status : Z) (data : Json)
| TimedOut
| Unreachable (code message : string).

Record AxiosError := {
  err_code : string;
  err_response : option (Z * Json);
  err_message : string
}.

Inductive AxiosResult :=
| Resolved (status : Z) (data : Json)
| Rejected (error : AxiosError).

(** The client's default [validateStatus]: the call in [routeToService]
    passes none, so a reply resolves the promise exactly when its status is
    in the 2xx range, and any other reply rejects it with the reply attached
    to the error. *)
Definition validateStatus (status : Z) : bool :=
  (200 <=? status) && (status <? 300).

Definition show_Z (n : Z) : string :=
  NilZero.string_of_int (Z.to_int n).

Definition axios (cfg : Config) (reply : Backend) : AxiosResult :=
  match reply with
  | Responded status data =>
      if validateStatus status then Resolved status data
      else
        Rejected
          {| err_code :=
               if status <? 500 then "ERR_BAD_REQUEST" else "ERR_BAD_RESPONSE";
             err_response := Some (status, data);
             err_message := "Request failed with status code " +:+ show_Z status |}
  | TimedOut =>
      Rejected
        {| err_code := "ECONNABORTED";
           err_response := None;
           err_message :=
             "timeout of " +:+ show_Z (SERVER_TIMEOUT_MS cfg) +:+ "ms exceeded" |}
  | Unreachable code message =>
      Rejected
        {| err_code := code; err_response := None; err_message := message |}
  end.

(** ** The registry client (lines 154-173) *)

(** [getServiceIPs] through [safeRedisOperation]: the empty list when the
    client is not connected or the call throws ([None]). *)
Definition getServiceIPs (redisConnected : bool) (lRange : option (list string))
    : list string :=
  if redisConnected then default [] lRange else [].

(** ** The router (lines 318-370) *)

(** What one request meets outside the gateway. *)
Record World := {
  gate_now : Z;
  redisConnected : bool;
  lRange : option (list string);
  samples : list (string * MetricsReply);
  backend : string -> Backend;
  outcome_now : Z
}.

(** The calls a request makes on its way: the forward to a backend, and the
    accounting on the breaker. *)
Inductive Call :=
| Forward (target : string)
| RecordSuccess (service : string)
| RecordFailure (service : string).

Record Outcome := {
  gateway_after : Gateway;
  response : Response;
  calls : list Call
}.

Section Router.

Context (cfg : Config).

(** [const breaker = circuitBreakers[service]] followed by updates of the
    record in place. A key the object lacks gives [undefined], and reading
    a field of it throws: [None]. *)
Definition withBreaker {A : Type} (service : string) (f : Breaker -> Breaker * A)
    (g : Gateway) : option (Gateway * A) :=
  breaker ← circuitBreakers g !! service;
  let '(breaker', result) := f breaker in
  Some (set_circuitBreakers (<[service := breaker']> (circuitBreakers g)) g, result).

(** [updateCircuitBreakerMetrics] (lines 494-499). *)
Definition statusValue (s : BreakerState) : Z :=
  match s with
  | CLOSED => 0
  | OPEN => 1
  | HALF_OPEN => 2
  end.

(** The [recordFailure] in force (lines 502-518) on the gateway. *)
Definition recordFailureOf (service : string) (now : Z) (g : Gateway) : option Gateway :=
  '(g1, opened) ← withBreaker service (recordFailure cfg now) g;
  if opened : bool then
    breaker ← circuitBreakers g1 !! service;
    Some (set_circuitBreakerStatus
            (<[service := statusValue (state breaker)]> (circuitBreakerStatus g1)) g1)
  else Some g1.

Definition recordSuccessOf (service : string) (g : Gateway) : option Gateway :=
  fst <$> withBreaker service (fun breaker => (recordSuccess breaker, tt)) g.

(** The [catch] block of [routeToService] (lines 363-368). *)
Definition error_response (error : AxiosError) : Response :=
  if bool_decide (err_code error = "ECONNABORTED") then
    json_detail 504 (JStr "Request timed out")
  else
    let status :=
      match err_response error with
      | Some (status, _) => if status =? 0 then 500 else status
      | None => 500
      end in
    let detail := err_response error ≫= (fun r => detail_of r.2) in
    json_detail status
      (match detail with
       | Some d => if truthy detail then d else JStr (err_message error)
       | None => JStr (err_message error)
       end).

(** [routeToService]. [None]: the call throws outside of its [try] (no
    record for [serviceName]) and no response is sent. *)
Definition routeToService (serviceType : string) (req : Request) (w : World)
    (g : Gateway) : option Outcome :=
  let serviceName := "service" +:+ serviceType in
  '(g1, allowed) ← withBreaker serviceName (checkCircuitBreaker cfg (gate_now w)) g;
  if negb allowed then
    Some {| gateway_after := g1;
            response :=
              json_detail 503
                (JStr (serviceName +:+ " is currently unavailable (Circuit Breaker: OPEN)"));
            calls := [] |}
  else
    let serviceIPs := getServiceIPs (redisConnected w) (lRange w) in
    match serviceIPs with
    | [] =>
        Some {| gateway_after := g1;
                response :=
                  json_detail 503
                    (JStr (serviceName +:+ " is not available or Redis is disconnected"));
                calls := [] |}
    | _ =>
        let '(g2, selected) :=
          selectServiceInstance serviceType serviceIPs (samples w) g1 in
        match selected with
        | Some selectedInstance =>
            if bool_decide (selectedInstance = "") then
              Some {| gateway_after := g2;
                      response :=
                        json_detail 503
                          (JStr ("No available instances for " +:+ serviceName));
                      calls := [] |}
            else
              let serviceUrl :=
                "http://" +:+ selectedInstance +:+ ":" +:+ SERV_REST_PORT cfg
                  +:+ url req in
              match axios cfg (backend w serviceUrl) with
              | Resolved status data =>
                  g3 ← recordSuccessOf serviceName g2;
                  Some {| gateway_after := g3;
                          response := {| status_code := status; payload := data |};
                          calls := [Forward serviceUrl; RecordSuccess serviceName] |}
              | Rejected error =>
                  g3 ← recordFailureOf serviceName (outcome_now w) g2;
                  Some {| gateway_after := g3;
                          response := error_response error;
                          calls := [Forward serviceUrl; RecordFailure serviceName] |}
              end
        | None =>
            Some {| gateway_after := g2;
                    response :=
                      json_detail 503
                        (JStr ("No available instances for " +:+ serviceName));
                    calls := [] |}
        end
    end.

End Router.

(** ** The admission limiter (lines 27, 443-452) *)

(** The counter, and the responses that carry the limiter's ['finish']
    listener and have not finished yet; a response is named by the number
    of its request. *)
Record Admission := {
  concurrentRequests : Z;
  finishListeners : list nat
}.

Definition initial_admission : Admission :=
  {| concurrentRequests := 0; finishListeners := [] |}.

Definition busy_response : Response :=
  json_detail 503 (JStr "API Gateway is busy. Please try again later.").

(** The listeners of [res] run, each decrementing the counter. *)
Fixpoint run_listeners (res : nat) (listeners : list nat) (counter : Z) : Z :=
  match listeners with
  | [] => counter
  | r :: rest =>
      run_listeners res rest (if bool_decide (r = res) then counter - 1 else counter)
  end.

(** The ['finish'] event of a response: emitted once the response is handed
    over, and once only, so its listeners are then spent. *)
Definition emitFinish (res : nat) (a : Admission) : Admission :=
  {| concurrentRequests := run_listeners res (finishListeners a) (concurrentRequests a);
     finishListeners := List.filter (fun r => negb (bool_decide (r = res))) (finishListeners a) |}.

Inductive Event :=
| Arrive (res : nat)
| Finish (res : nat).

Section Limiter.

Context (cfg : Config).

(** [taskLimiter]: [Some response] when it answers itself, [None] when it
    calls [next()]. *)
Definition taskLimiter (res : nat) (a : Admission) : Admission * option Response :=
  if concurrentRequests a >=? MAX_CONCURRENT_REQUESTS cfg then
    (a, Some busy_response)
  else
    ({| concurrentRequests := concurrentRequests a + 1;
        finishListeners := res :: finishListeners a |}, None).

Definition step (a : Admission) (e : Event) : Admission :=
  match e with
  | Arrive res => fst (taskLimiter res a)
  | Finish res => emitFinish res a
  end.

Definition run (trace : list Event) (a : Admission) : Admission :=
  fold_left step trace a.

End Limiter.

Definition event_res (e : Event) : nat :=
  match e with
  | Arrive res | Finish res => res
  end.

(** ** What the properties speak of *)

(** The four ways a request leaves [routeToService]: turned away at the
    gate; admitted but answered 503 for want of an instance; forwarded with
    the promise resolved; forwarded with the promise rejected. *)
Inductive Route (cfg : Config) (serviceType : string) (req : Request) (w : World)
    (g : Gateway) (b : Breaker) (out : Outcome) : Prop :=
| RouteGated :
    checkCircuitBreaker cfg (gate_now w) b = (b, false) ->
    out = {| gateway_after := g;
             response :=
               json_detail 503
                 (JStr (("service" +:+ serviceType)
                          +:+ " is currently unavailable (Circuit Breaker: OPEN)"));
             calls := [] |} ->
    Route cfg serviceType req w g b out
| RouteNoInstance :
    (checkCircuitBreaker cfg (gate_now w) b).2 = true ->
    calls out = [] ->
    status_code (response out) = 503 ->
    circuitBreakers (gateway_after out)
    = <["service" +:+ serviceType := (checkCircuitBreaker cfg (gate_now w) b).1]>
        (circuitBreakers g) ->
    (getServiceIPs (redisConnected w) (lRange w) = []
     \/ "" ∈ getServiceIPs (redisConnected w) (lRange w)) ->
    Route cfg serviceType req w g b out
| RouteResolved (instance : string) (status : Z) (data : Json) :
    (checkCircuitBreaker cfg (gate_now w) b).2 = true ->
    instance ∈ getServiceIPs (redisConnected w) (lRange w) ->
    let target := "http://" +:+ instance +:+ ":" +:+ SERV_REST_PORT cfg +:+ url req in
    axios cfg (backend w target) = Resolved status data ->
    calls out = [Forward target; RecordSuccess ("service" +:+ serviceType)] ->
    response out = {| status_code := status; payload := data |} ->
    circuitBreakers (gateway_after out)
    = <["service" +:+ serviceType :=
          recordSuccess (checkCircuitBreaker cfg (gate_now w) b).1]>
        (circuitBreakers g) ->
    Route cfg serviceType req w g b out
| RouteRejected (instance : string) (error : AxiosError) :
    (checkCircuitBreaker cfg (gate_now w) b).2 = true ->
    instance ∈ getServiceIPs (redisConnected w) (lRange w) ->
    let target := "http://" +:+ instance +:+ ":" +:+ SERV_REST_PORT cfg +:+ url req in
    axios cfg (backend w target) = Rejected error ->
    calls out = [Forward target; RecordFailure ("service" +:+ serviceType)] ->
    response out = error_response error ->
    circuitBreakers (gateway_after out)
    = <["service" +:+ serviceType :=
          (recordFailure cfg (outcome_now w)
             (checkCircuitBreaker cfg (gate_now w) b).1).1]>
        (circuitBreakers g) ->
    Route cfg serviceType req w g b out.

(** The error the client raises for a reply whose status it does not
    accept. *)
Definition status_error (status : Z) (data : Json) : AxiosError :=
  {| err_code := if status <? 500 then "ERR_BAD_REQUEST" else "ERR_BAD_RESPONSE";
     err_response := Some (status, data);
     err_message := "Request failed with status code " +:+ show_Z status |}.

(** The listeners of a response that are registered. *)
Definition listeners_of (res : nat) (listeners : list nat) : nat :=
  length (List.filter (fun r => bool_decide (r = res)) listeners).

(** The counter counts the listeners that wait for their response to
    finish, and stays within the limit. *)
Definition admission_inv (cfg : Config) (a : Admission) : Prop :=
  concurrentRequests a = Z.of_nat (length (finishListeners a))
  /\ concurrentRequests a <= MAX_CONCURRENT_REQUESTS cfg.

(** ** The service routes (lines 601-602) *)














(** ** Scenarios *)

(** A sample that reports [n] requests per second. *)
Definition rps (n : Z) : MetricsReply :=
  MetricsOk (Some {| requestsPerSecond := Some n |}).

(** A gateway with one instance registered for A, seen healthy. *)
Definition one_instance : Gateway :=
  {| circuitBreakers := circuitBreakers initial_gateway;
     serviceLoads := serviceLoads initial_gateway;
     healthStatus := <["A-10.0.0.1" := true]> ∅;
     circuitBreakerStatus := ∅ |}.

(** A request, a backend body, and what a request meets when the registry
    lists that instance and the backend gives [reply]. *)
Definition get_me : Request :=
  {| method := "GET"; url := "/sA/api/users/auth/me"; body := JNull |}.

Definition not_found : Json :=
  JObj [("detail", JStr "Not found"); ("code", JNum 7)].

Definition world_replying (now : Z) (reply : Backend) : World :=
  {| gate_now := now;
     redisConnected := true;
     lRange := Some ["10.0.0.1"];
     samples := [("10.0.0.1", rps 10)];
     backend := fun _ => reply;
     outcome_now := now + 10 |}.



(** The gateway of scenario 6: three instances registered for A, all seen
    healthy by the monitor. *)
Definition three_healthy : Gateway :=
  {| circuitBreakers := circuitBreakers initial_gateway;
     serviceLoads := serviceLoads initial_gateway;
     healthStatus :=
       <["A-10.0.0.1" := true]> (<["A-10.0.0.2" := true]> (<["A-10.0.0.3" := true]> ∅));
     circuitBreakerStatus := ∅ |}.

(** What a request for A meets in scenario 6: the three instances listed,
    with loads of 30, 5 and 50 requests per second, and a backend that
    answers 200. *)
Definition world_three : World :=
  {| gate_now := 1000;
     redisConnected := true;
     lRange := Some ["10.0.0.1"; "10.0.0.2"; "10.0.0.3"];
     samples := [("10.0.0.1", rps 30); ("10.0.0.2", rps 5); ("10.0.0.3", rps 50)];
     backend := fun _ => Responded 200 JNull;
     outcome_now := 1010 |}.

(** The gateway [one_instance] with the breaker of service A OPEN since
    [t]. *)
Definition open_since (t : Z) : Gateway :=
  set_circuitBreakers
    (<["serviceA" :=
         {| failures := 3; lastFailure := Some t; state := OPEN;
            reroutes := 0; lastReroute := None; consecutiveReroutes := 1 |}]>
       (circuitBreakers one_instance))
    one_instance.

(** The outcome of a request that was answered. *)
Definition outcome_of (route : option Outcome) : Outcome :=
  default {| gateway_after := initial_gateway; response := busy_response; calls := [] |}
    route.

(** ** The reconnection strategy of the registry client (lines 119-127) *)

Record RetryOptions := {
  total_retry_time : Z;
  attempt : Z
}.

(** [retry_strategy]: [None] is [null], no further attempt. *)
Definition retry_strategy (options : RetryOptions) : option Z :=
  if total_retry_time options >? 1000 * 60 * 60 then None
  else if attempt options >? 10 then None
  else Some (Z.min (attempt options * 100) 3000).

(** ** The registry and the registration endpoint (lines 154-191, 455-470) *)

(** The store behind the client: the flag [redisConnected] that the
    client's events keep, whether a command sent now gets through, and the
    lists held under each key. *)
Record Redis := {
  connectedFlag : bool;
  reachable : bool;
  lists : gmap string (list string)
}.

(** [LPUSH key value]: the value goes in front; a key that holds nothing
    starts a list. [None]: the command throws. *)
Definition lPush (key value : string) (r : Redis) : option Redis :=
  if reachable r then
    Some {| connectedFlag := connectedFlag r;
            reachable := reachable r;
            lists := <[key := value :: default [] (lists r !! key)]> (lists r) |}
  else None.

(** [LRANGE key 0 -1]. *)
Definition lRangeAll (key : string) (r : Redis) : option (list string) :=
  if reachable r then Some (default [] (lists r !! key)) else None.

(** [getServiceIPs(serviceType)] on that store (lines 168-173). *)
Definition listInstances (serviceType : string) (r : Redis) : list string :=
  getServiceIPs (connectedFlag r) (lRangeAll ("service:" +:+ serviceType) r).

(** [getAllServices] (lines 176-191): the entries of the object it returns,
    in their order. [getServiceIPs] does not throw, so the [catch] is never
    entered. *)
Definition getAllServices (r : Redis) : list (string * list string) :=
  [("A", listInstances "A" r); ("B", listInstances "B" r)].

(** The two fields the handler reads from [req.body]; [None] is a field
    that is not there. *)
Record Registration := {
  host : option string;
  serviceType : option string
}.

(** [!field]: a missing field and the empty string are falsy. *)
Definition missing (field : option string) : bool :=
  match field with
  | Some s => bool_decide (s = "")
  | None => true
  end.

(** The handler of [POST /sA/register] (lines 455-470). [res.json] without
    a status answers 200. *)
Definition registerHandler (fields : Registration) (r : Redis) : Redis * Response :=
  if missing (host fields) || missing (serviceType fields) then
    (r, {| status_code := 400;
           payload := JObj [("error", JStr "Missing required fields")] |})
  else
    match lPush ("service:" +:+ default "" (serviceType fields))
            (default "" (host fields)) r with
    | Some r' =>
        (r', {| status_code := 200;
                payload := JObj [("status", JStr "registered")] |})
    | None =>
        (r, {| status_code := 500;
               payload := JObj [("error", JStr "Registration failed")] |})
    end.

(** ** The health monitor (lines 201-243) *)

(** The gateway together with the gauge [service_health_status]. *)
Record Monitor := {
  gateway : Gateway;
  serviceHealthGauge : gmap string Z
}.

Definition set_healthStatus (hs : gmap string bool) (g : Gateway) : Gateway :=
  {| circuitBreakers := circuitBreakers g;
     serviceLoads := serviceLoads g;
     healthStatus := hs;
     circuitBreakerStatus := circuitBreakerStatus g |}.

(** [checkServiceHealth] (lines 207-217): [ping] is what the instances
    answer to [GET http://<instance>/ping] during one run of the monitor. A
    reply the client rejects is caught and counts as unhealthy. *)
Definition checkServiceHealth (cfg : Config) (ping : string -> Backend)
    (serviceType instance : string) : bool :=
  match axios cfg (ping ("http://" +:+ instance +:+ "/ping")) with
  | Resolved status _ => status =? 200
  | Rejected _ => false
  end.

(** [updateServiceHealth] (lines 219-225). *)
Definition updateServiceHealth (cfg : Config) (ping : string -> Backend)
    (serviceType instance : string) (m : Monitor) : Monitor * bool :=
  let isHealthy := checkServiceHealth cfg ping serviceType instance in
  let key := serviceType +:+ "-" +:+ instance in
  ({| gateway :=
        set_healthStatus (<[key := isHealthy]> (healthStatus (gateway m))) (gateway m);
      serviceHealthGauge :=
        <[key := if isHealthy then 1 else 0]> (serviceHealthGauge m) |},
   isHealthy).

(** One run of the timer's callback (lines 228-235): the instances of each
    service, one after the other. *)
Definition healthCycle (cfg : Config) (ping : string -> Backend)
    (services : list (string * list string)) (m : Monitor) : Monitor :=
  fold_left
    (fun acc service =>
       fold_left
         (fun acc' instance =>
            fst (updateServiceHealth cfg ping service.1 instance acc'))
         service.2 acc)
    services m.

(** ** The status endpoint (lines 194-197, 531-598) *)

(** An entry of [healthStatus] in the report: [None] for [status:
    'healthy'], the error's message for [status: 'unhealthy']. *)
Record InstanceHealth := {
  ip : string;
  error : option string
}.

Record ServiceReport := {
  sr_instances : nat;
  sr_circuitBreakerState : BreakerState;
  sr_healthStatus : list InstanceHealth
}.

(** The body with [status: 'healthy']. *)
Record HealthReport := {
  hr_timestamp : Z;
  hr_port : Z;
  hr_concurrentRequests : Z;
  hr_maxConcurrentRequests : Z;
  hr_redisConnected : bool;
  hr_serviceA : ServiceReport;
  hr_serviceB : ServiceReport
}.

Record HealthCheckCache := {
  cache_timestamp : option Z;
  cache_results : option HealthReport
}.

Definition initial_cache : HealthCheckCache :=
  {| cache_timestamp := None; cache_results := None |}.

(** 200 with the report (whatever the cache holds, when it is the cache
    that answers), or 500 with [status: 'unhealthy']. *)
Inductive PingAnswer :=
| PingOk (report : option HealthReport)
| PingUnhealthy.

(** What the handler finds when it is called. *)
Record PingCall := {
  ping_now : Z;
  ping_redis : Redis;
  ping_probe : string -> Backend;
  ping_concurrentRequests : Z;
  ping_gateway : Gateway
}.

Definition probe_url (cfg : Config) (instance : string) : string :=
  "http://" +:+ instance +:+ ":" +:+ SERV_REST_PORT cfg +:+ "/ping".

(** The probe of one instance (lines 558-567). *)
Definition probeInstance (cfg : Config) (probe : string -> Backend)
    (instance : string) : InstanceHealth :=
  match axios cfg (probe (probe_url cfg instance)) with
  | Resolved _ _ => {| ip := instance; error := None |}
  | Rejected e => {| ip := instance; error := Some (err_message e) |}
  end.

(** The handler of [GET /ping], with the URLs it probes. Reading [state] of
    a breaker record that is not there throws inside the [try]; for
    [serviceB] this is after the instances of A were probed. *)
Definition pingHandler (port : Z) (cfg : Config) (call : PingCall)
    (cache : HealthCheckCache) : HealthCheckCache * PingAnswer * list string :=
  let now := ping_now call in
  if truthy_time (cache_timestamp cache)
     && (now - toNumber (cache_timestamp cache) <? 10000)
  then (cache, PingOk (cache_results cache), [])
  else
    let serviceAIPs := listInstances "A" (ping_redis call) in
    let serviceBIPs := listInstances "B" (ping_redis call) in
    match circuitBreakers (ping_gateway call) !! "serviceA" with
    | None => (cache, PingUnhealthy, [])
    | Some breakerA =>
        match circuitBreakers (ping_gateway call) !! "serviceB" with
        | None => (cache, PingUnhealthy, List.map (probe_url cfg) serviceAIPs)
        | Some breakerB =>
            let healthStatus :=
              {| hr_timestamp := now;
                 hr_port := port;
                 hr_concurrentRequests := ping_concurrentRequests call;
                 hr_maxConcurrentRequests := MAX_CONCURRENT_REQUESTS cfg;
                 hr_redisConnected := connectedFlag (ping_redis call);
                 hr_serviceA :=
                   {| sr_instances := length serviceAIPs;
                      sr_circuitBreakerState := state breakerA;
                      sr_healthStatus :=
                        List.map (probeInstance cfg (ping_probe call)) serviceAIPs |};
                 hr_serviceB :=
                   {| sr_instances := length serviceBIPs;
                      sr_circuitBreakerState := state breakerB;
                      sr_healthStatus :=
                        List.map (probeInstance cfg (ping_probe call)) serviceBIPs |} |} in
            ({| cache_timestamp := Some now; cache_results := Some healthStatus |},
             PingOk (Some healthStatus),
             (List.map (probe_url cfg) serviceAIPs
                ++ List.map (probe_url cfg) serviceBIPs)%list)
        end
    end.

(** Calls of [GET /ping] one after the other: the cache at the end, and for
    each call its time, the answer it got and the URLs that were probed for
    it. *)
Fixpoint ping_all (port : Z) (cfg : Config) (calls : list PingCall)
    (cache : HealthCheckCache)
    : HealthCheckCache * list (Z * PingAnswer * list string) :=
  match calls with
  | [] => (cache, [])
  | call :: rest =>
      let '(cache1, answer, probes) := pingHandler port cfg call cache in
      let '(cache2, answers) := ping_all port cfg rest cache1 in
      (cache2, (ping_now call, answer, probes) :: answers)
  end.

(** ** Sequences of operations *)

(** Operations on one breaker record, one after the other. *)
Definition run_ops (cfg : Config) (ops : list BreakerOp) (b : Breaker) : Breaker :=
  fold_left (fun acc op => apply_op cfg op acc) ops b.

(** The operations a request performs: all but [recordReroute]. *)
Definition request_op (op : BreakerOp) : bool :=
  match op with
  | OpReroute _ => false
  | _ => true
  end.

Definition is_failure (op : BreakerOp) : bool :=
  match op with
  | OpFailure _ => true
  | _ => false
  end.

(** Reroutes recorded one after the other at the given times. *)
Definition reroute_all (cfg : Config) (times : list Z) (b : Breaker) : Breaker :=
  run_ops cfg (List.map OpReroute times) b.

(** Each time is within 5000 ms of the one before, which is not the falsy
    time 0. *)
Fixpoint in_window (previous : Z) (times : list Z) : Prop :=
  match times with
  | [] => True
  | t :: rest => previous <> 0 /\ t - previous <= 5000 /\ in_window t rest
  end.

(** A request that comes in: its service type, the request, and what it
    meets. *)
Record Incoming := {
  in_serviceType : string;
  in_request : Request;
  in_world : World
}.

(** The gateway after a request; a call that throws at the gate has changed
    nothing. *)
Definition serve (cfg : Config) (g : Gateway) (r : Incoming) : Gateway :=
  match routeToService cfg (in_serviceType r) (in_request r) (in_world r) g with
  | Some out => gateway_after out
  | None => g
  end.

(** What happens at the gateway: a request is served, or the timer of the
    health monitor fires, with what the instances answer to its pings and
    what the registry holds then. *)
Inductive Activity :=
| Serve (r : Incoming)
| CheckHealth (ping : string -> Backend) (registry : Redis).

Definition live (cfg : Config) (m : Monitor) (a : Activity) : Monitor :=
  match a with
  | Serve r =>
      {| gateway := serve cfg (gateway m) r;
         serviceHealthGauge := serviceHealthGauge m |}
  | CheckHealth ping registry =>
      healthCycle cfg ping (getAllServices registry) m
  end.

Definition live_all (cfg : Config) (activities : list Activity) (m : Monitor) : Monitor :=
  fold_left (live cfg) activities m.

Definition initial_monitor : Monitor :=
  {| gateway := initial_gateway; serviceHealthGauge := ∅ |}.

(** [Map.prototype.get]. *)
Definition map_get (k : string) (m : LoadMap) : option (option LoadData) :=
  snd <$> List.find (fun entry => bool_decide (entry.1 = k)) m.

(** A request for A; three of them, one second apart, that the backend
    answers with 500; and one that finds the registry disconnected. *)
Definition incoming (now : Z) (reply : Backend) : Incoming :=
  {| in_serviceType := "A";
     in_request := get_me;
     in_world := world_replying now reply |}.

Definition three_failures : list Activity :=
  [Serve (incoming 1000 (Responded 500 JNull));
   Serve (incoming 2000 (Responded 500 JNull));
   Serve (incoming 3000 (Responded 500 JNull))].

Definition incoming_no_registry (now : Z) : Incoming :=
  {| in_serviceType := "A";
     in_request := get_me;
     in_world :=
       {| gate_now := now;
          redisConnected := false;
          lRange := None;
          samples := [];
          backend := fun _ => TimedOut;
          outcome_now := now |} |}.

(** A registry that lists the given instances for A. *)
Definition registry_with (instances : list string) : Redis :=
  {| connectedFlag := true;
     reachable := true;
     lists := <["service:A" := instances]> ∅ |}.

(** A gateway that has a load map under the key [pool], with two healthy
    instances at 30 and 5 requests per second. *)
Definition loaded_gateway : Gateway :=
  {| circuitBreakers := circuitBreakers initial_gateway;
     serviceLoads :=
       <["pool" := [("10.0.0.1", Some {| requestsPerSecond := Some 30 |});
                    ("10.0.0.2", Some {| requestsPerSecond := Some 5 |})] ]>
         (serviceLoads initial_gateway);
     healthStatus := <["pool-10.0.0.1" := true]> (<["pool-10.0.0.2" := true]> ∅);
     circuitBreakerStatus := ∅ |}.

(** A call of [GET /ping] at [now] that finds the gateway [g] and a registry
    with one instance for A. *)
Definition ping_call (now : Z) (g : Gateway) : PingCall :=
  {| ping_now := now;
     ping_redis := registry_with ["10.0.0.1"];
     ping_probe := fun _ => Responded 200 JNull;
     ping_concurrentRequests := 0;
     ping_gateway := g |}.

(** ** Invariants *)

(** What every breaker record satisfies. *)
Definition breaker_wf (b : Breaker) : Prop :=
  (state b <> CLOSED -> is_Some (lastFailure b))
  /\ 0 <= failures b
  /\ 0 <= consecutiveReroutes b <= reroutes b.

(** What a breaker record satisfies as long as only requests act on it. *)
Definition breaker_settled (cfg : Config) (b : Breaker) : Prop :=
  (state b = CLOSED <-> failures b < ERROR_THRESHOLD cfg)
  /\ (state b <> CLOSED -> is_Some (lastFailure b))
  /\ 0 <= failures b
  /\ reroutes b = 0
  /\ consecutiveReroutes b = 0.

(** The report in the cache carries the cache's timestamp. *)
Definition cache_ok (cache : HealthCheckCache) : Prop :=
  match cache_timestamp cache, cache_results cache with
  | None, None => True
  | Some t, Some report => hr_timestamp report = t
  | _, _ => False
  end.

(** The gauge shows the health view. *)
Definition gauge_agrees (m : Monitor) : Prop :=
  forall key : string,
    serviceHealthGauge m !! key
    = (fun healthy : bool => if healthy then 1 else 0)
        <$> healthStatus (gateway m) !! key.

(** * Properties *)

(** ** The breaker record *)

Lemma gtb_true_iff (a b : Z) : (a >? b) = true <-> a > b.
Proof. rewrite Z.gtb_ltb, Z.ltb_lt. lia. Qed.

Lemma geb_true_iff (a b : Z) : (a >=? b) = true <-> a >= b.
Proof. rewrite Z.geb_leb, Z.leb_le. lia. Qed.

Lemma gtb_false_iff (a b : Z) : (a >? b) = false <-> a <= b.
Proof. rewrite Z.gtb_ltb, Z.ltb_ge. lia. Qed.

Lemma geb_false_iff (a b : Z) : (a >=? b) = false <-> a < b.
Proof. rewrite Z.geb_leb, Z.leb_gt. lia. Qed.

(** Writing a record back under its own key changes nothing. *)
Lemma set_same_breaker (service : string) (b : Breaker) (g : Gateway) :
  circuitBreakers g !! service = Some b ->
  set_circuitBreakers (<[service := b]> (circuitBreakers g)) g = g.
Proof.
  intros Hb. destruct g as [cbs sl hs gauge]. unfold set_circuitBreakers. simpl in *.
  f_equal. by apply insert_id.
Qed.

Lemma withBreaker_lookup {A : Type} (service : string) (f : Breaker -> Breaker * A)
    (g : Gateway) (b : Breaker) :
  circuitBreakers g !! service = Some b ->
  withBreaker service f g
  = Some (set_circuitBreakers (<[service := (f b).1]> (circuitBreakers g)) g, (f b).2).
Proof.
  intros Hb. unfold withBreaker. rewrite Hb. simpl. by destruct (f b).
Qed.

(** The gate leaves a breaker alone unless it is OPEN. *)
Lemma gate_not_open (cfg : Config) (now : Z) (b : Breaker) :
  state b <> OPEN -> checkCircuitBreaker cfg now b = (b, true).
Proof. unfold checkCircuitBreaker. by destruct (state b). Qed.

Lemma gate_all_not_open (cfg : Config) (times : list Z) (b : Breaker) :
  state b <> OPEN ->
  gate_all cfg times b = (b, List.map (fun _ => true) times).
Proof.
  intros Hs. induction times as [|now rest IH]; simpl; [done|].
  by rewrite gate_not_open, IH.
Qed.

(** With a timeout that is not negative, the comparison of [recordFailure]
    with the time window always succeeds: the branch that resets the
    counter to 1 never runs. *)
Lemma recordFailure_at_threshold (cfg : Config) (now : Z) (b : Breaker) :
  0 <= ERROR_TIMEOUT cfg ->
  failures b + 1 >= ERROR_THRESHOLD cfg ->
  recordFailure cfg now b
  = ({| failures := failures b + 1;
        lastFailure := Some now;
        state := OPEN;
        reroutes := reroutes b;
        lastReroute := lastReroute b;
        consecutiveReroutes := consecutiveReroutes b |}, true).
Proof.
  intros Ht Hf. unfold recordFailure.
  apply geb_true_iff in Hf. rewrite Hf. simpl toNumber.
  replace (now - now <=? ERROR_TIMEOUT cfg) with true; [done|].
  symmetry. apply Z.leb_le. lia.
Qed.

Lemma recordFailure_below_threshold (cfg : Config) (now : Z) (b : Breaker) :
  failures b + 1 < ERROR_THRESHOLD cfg ->
  recordFailure cfg now b
  = ({| failures := failures b + 1;
        lastFailure := Some now;
        state := state b;
        reroutes := reroutes b;
        lastReroute := lastReroute b;
        consecutiveReroutes := consecutiveReroutes b |}, false).
Proof.
  intros Hf. unfold recordFailure. apply geb_false_iff in Hf. by rewrite Hf.
Qed.

Lemma recordFailure_reroutes (cfg : Config) (now : Z) (b : Breaker) :
  reroutes (recordFailure cfg now b).1 = reroutes b
  /\ consecutiveReroutes (recordFailure cfg now b).1 = consecutiveReroutes b.
Proof. unfold recordFailure. by repeat case_match. Qed.

Lemma recordSuccess_reroutes (b : Breaker) :
  reroutes (recordSuccess b) = reroutes b.
Proof. unfold recordSuccess. by destruct (state b). Qed.

Lemma checkCircuitBreaker_reroutes (cfg : Config) (now : Z) (b : Breaker) :
  reroutes (checkCircuitBreaker cfg now b).1 = reroutes b.
Proof. unfold checkCircuitBreaker. by repeat case_match. Qed.

(** C2. At a breaker that is CLOSED with two failures, the last of them at
    time 1000, a failure recorded at time 101000, 100 s later and so far
    outside [ERROR_TIMEOUT] (17500 ms), opens the breaker with a count of 3;
    the count is not reset to 1 and the breaker does not stay CLOSED. *)
Theorem recordFailure_late_failure_opens :
  recordFailure default_config 101000
    {| failures := 2; lastFailure := Some 1000; state := CLOSED;
       reroutes := 0; lastReroute := None; consecutiveReroutes := 0 |}
  = ({| failures := 3; lastFailure := Some 101000; state := OPEN;
        reroutes := 0; lastReroute := None; consecutiveReroutes := 0 |}, true).
Proof. reflexivity. Qed.

(** C4 does not hold as the specification words it: a success recorded on
    a CLOSED breaker leaves [consecutiveReroutes] at 1, and a reroute
    recorded 10000 ms after the last one sets it to 1, not to 0. *)
Lemma consecutiveReroutes_not_reset :
  consecutiveReroutes
    (apply_op default_config OpSuccess
       {| failures := 0; lastFailure := None; state := CLOSED;
          reroutes := 1; lastReroute := Some 1000; consecutiveReroutes := 1 |}) <> 0
  /\ consecutiveReroutes
       (apply_op default_config (OpReroute 11000)
          {| failures := 0; lastFailure := None; state := CLOSED;
             reroutes := 1; lastReroute := Some 1000; consecutiveReroutes := 1 |}) <> 0.
Proof. split; vm_compute; discriminate. Qed.

(** C4, amended. Among the operations on a breaker record,
    [consecutiveReroutes] is set to zero by a success recorded while the
    breaker is HALF_OPEN and by the gate when it moves an OPEN breaker to
    HALF_OPEN, and by nothing else: a success in another state, a gate that
    does not leave OPEN and a failure leave it as it is, and a reroute makes
    it at least 1, exactly 1 when there is no earlier reroute or the earlier
    one is more than 5000 ms old. Whatever operation brings a breaker into
    HALF_OPEN leaves the counter at zero. *)
Theorem consecutiveReroutes_reset_cases (cfg : Config) (op : BreakerOp) (b : Breaker) :
  0 <= consecutiveReroutes b ->
  match op with
  | OpSuccess =>
      (state b = HALF_OPEN -> consecutiveReroutes (apply_op cfg op b) = 0)
      /\ (state b <> HALF_OPEN ->
          consecutiveReroutes (apply_op cfg op b) = consecutiveReroutes b)
  | OpGate now =>
      (state b = OPEN -> now - toNumber (lastFailure b) > ERROR_TIMEOUT cfg ->
       consecutiveReroutes (apply_op cfg op b) = 0
       /\ state (apply_op cfg op b) = HALF_OPEN)
      /\ (state b <> OPEN \/ now - toNumber (lastFailure b) <= ERROR_TIMEOUT cfg ->
          consecutiveReroutes (apply_op cfg op b) = consecutiveReroutes b)
  | OpFailure now =>
      consecutiveReroutes (apply_op cfg op b) = consecutiveReroutes b
  | OpReroute now =>
      1 <= consecutiveReroutes (apply_op cfg op b)
      /\ (lastReroute b = None \/ now - toNumber (lastReroute b) > 5000 ->
          consecutiveReroutes (apply_op cfg op b) = 1)
  end
  /\ (state b <> HALF_OPEN -> state (apply_op cfg op b) = HALF_OPEN ->
      consecutiveReroutes (apply_op cfg op b) = 0).
Proof.
  intros Hnonneg. split; cycle 1.
  { destruct op as [now| |now|now]; simpl;
      unfold checkCircuitBreaker, recordSuccess, recordFailure, recordReroute;
      repeat case_match; simpl; congruence. }
  destruct op as [now| |now|now]; simpl.
  - unfold checkCircuitBreaker. split.
    + intros Hs Ht. rewrite Hs. apply gtb_true_iff in Ht. by rewrite Ht.
    + intros [Hs|Ht].
      * by destruct (state b).
      * apply gtb_false_iff in Ht. rewrite Ht. by destruct (state b).
  - unfold recordSuccess. split; intros Hs; by destruct (state b).
  - apply recordFailure_reroutes.
  - unfold recordReroute. split.
    + repeat case_match; simpl; lia.
    + intros Hout.
      assert (truthy_time (lastReroute b)
              && (now - toNumber (lastReroute b) <=? 5000) = false) as ->.
      { destruct Hout as [->|Hlate]; [done|].
        apply andb_false_iff. right. apply Z.leb_gt. lia. }
      by case_match.
Qed.

Lemma consecutiveReroutes_reset_cases_witness :
  consecutiveReroutes
    (apply_op default_config (OpGate 20000)
       {| failures := 3; lastFailure := Some 1000; state := OPEN;
          reroutes := 0; lastReroute := None; consecutiveReroutes := 1 |}) = 0.
Proof.
  refine (proj1 (proj1 (proj1 (consecutiveReroutes_reset_cases default_config (OpGate 20000)
    {| failures := 3; lastFailure := Some 1000; state := OPEN;
       reroutes := 0; lastReroute := None; consecutiveReroutes := 1 |} _)) _ _)).
  - simpl. lia.
  - reflexivity.
  - simpl. lia.
Defined.

(** C6. A success recorded on a HALF_OPEN breaker closes it and sets
    [failures] to 0, [lastFailure] to [null] and [consecutiveReroutes] to 0;
    the reroute counter and [lastReroute] stay. The record stored under the
    service's key in [circuitBreakers] is the one so updated. *)
Theorem recordSuccess_half_open_closes (b : Breaker) (service : string) (g : Gateway) :
  state b = HALF_OPEN ->
  circuitBreakers g !! service = Some b ->
  recordSuccess b
  = {| failures := 0;
       lastFailure := None;
       state := CLOSED;
       reroutes := reroutes b;
       lastReroute := lastReroute b;
       consecutiveReroutes := 0 |}
  /\ exists g', recordSuccessOf service g = Some g'
       /\ circuitBreakers g' !! service = Some (recordSuccess b)
       /\ forall other, other <> service ->
            circuitBreakers g' !! other = circuitBreakers g !! other.
Proof.
  intros Hs Hb. split.
  - unfold recordSuccess. by rewrite Hs.
  - unfold recordSuccessOf.
    rewrite (withBreaker_lookup _ _ _ _ Hb). simpl.
    eexists. split; [done|]. simpl. split.
    + by rewrite lookup_insert_eq.
    + intros other Hne. by rewrite lookup_insert_ne.
Qed.

Lemma recordSuccess_half_open_closes_witness :
  recordSuccess
    {| failures := 3; lastFailure := Some 1000; state := HALF_OPEN;
       reroutes := 0; lastReroute := None; consecutiveReroutes := 0 |}
  = {| failures := 0; lastFailure := None; state := CLOSED;
       reroutes := 0; lastReroute := None; consecutiveReroutes := 0 |}.
Proof.
  refine (proj1 (recordSuccess_half_open_closes
    {| failures := 3; lastFailure := Some 1000; state := HALF_OPEN;
       reroutes := 0; lastReroute := None; consecutiveReroutes := 0 |}
    "serviceA"
    (set_circuitBreakers
       (<["serviceA" :=
            {| failures := 3; lastFailure := Some 1000; state := HALF_OPEN;
               reroutes := 0; lastReroute := None; consecutiveReroutes := 0 |}]>
          (circuitBreakers initial_gateway)) initial_gateway) _ _)).
  - reflexivity.
  - vm_compute. reflexivity.
Defined.

(** C10. On a breaker that is CLOSED or HALF_OPEN the gate answers [true]
    and changes no field of the record, nor anything else in the gateway;
    so each of any number of dispatch attempts on a HALF_OPEN breaker is
    admitted. *)
Theorem gate_passes_closed_and_half_open (cfg : Config) (now : Z) (b : Breaker)
    (service : string) (g : Gateway) :
  state b = CLOSED \/ state b = HALF_OPEN ->
  circuitBreakers g !! service = Some b ->
  checkCircuitBreaker cfg now b = (b, true)
  /\ withBreaker service (checkCircuitBreaker cfg now) g = Some (g, true)
  /\ forall times : list Z,
       gate_all cfg times b = (b, List.map (fun _ => true) times).
Proof.
  intros Hs Hb.
  assert (state b <> OPEN) as Hno by (destruct Hs as [Hs|Hs]; rewrite Hs; discriminate).
  split; [by apply gate_not_open|]. split.
  - rewrite (withBreaker_lookup _ _ _ _ Hb), gate_not_open by done. simpl.
    by rewrite set_same_breaker.
  - intros times. by apply gate_all_not_open.
Qed.

Lemma gate_passes_closed_and_half_open_witness :
  gate_all default_config [10; 11; 12]
    {| failures := 3; lastFailure := Some 1; state := HALF_OPEN;
       reroutes := 0; lastReroute := None; consecutiveReroutes := 0 |}
  = ({| failures := 3; lastFailure := Some 1; state := HALF_OPEN;
        reroutes := 0; lastReroute := None; consecutiveReroutes := 0 |},
     [true; true; true]).
Proof.
  refine (proj2 (proj2 (gate_passes_closed_and_half_open default_config 10
    {| failures := 3; lastFailure := Some 1; state := HALF_OPEN;
       reroutes := 0; lastReroute := None; consecutiveReroutes := 0 |}
    "serviceB"
    (set_circuitBreakers
       (<["serviceB" :=
            {| failures := 3; lastFailure := Some 1; state := HALF_OPEN;
               reroutes := 0; lastReroute := None; consecutiveReroutes := 0 |}]>
          (circuitBreakers initial_gateway)) initial_gateway) _ _)) [10; 11; 12]).
  - right. reflexivity.
  - vm_compute. reflexivity.
Defined.

(** ** The selector *)

Lemma insert_by_load_elem (e x : string * option LoadData) (l : LoadMap) :
  x ∈ insert_by_load e l <-> x = e \/ x ∈ l.
Proof.
  induction l as [|y ys IH]; simpl.
  - rewrite list_elem_of_singleton, elem_of_nil. tauto.
  - destruct (compare_load e y); rewrite ?elem_of_cons, ?IH, ?elem_of_cons; tauto.
Qed.

Lemma sort_by_load_elem (x : string * option LoadData) (l : LoadMap) :
  x ∈ sort_by_load l <-> x ∈ l.
Proof.
  unfold sort_by_load. induction l as [|y ys IH]; simpl; [done|].
  rewrite insert_by_load_elem, elem_of_cons, IH. tauto.
Qed.

(** The sort of line 428, where it is reached: its first element is an
    entry of least load. *)
Lemma compare_load_flip (a b : string * option LoadData) :
  compare_load a b = Gt -> compare_load b a = Lt.
Proof.
  unfold compare_load.
  destruct (effective_load a.2) as [x|], (effective_load b.2) as [y|]; try done.
  intros Hgt. apply Z.compare_gt_iff in Hgt. by apply Z.compare_lt_iff.
Qed.

Lemma compare_load_trans (a b c : string * option LoadData) :
  compare_load a b <> Gt -> compare_load b c <> Gt -> compare_load a c <> Gt.
Proof.
  unfold compare_load.
  destruct (effective_load a.2) as [x|], (effective_load b.2) as [y|],
    (effective_load c.2) as [z|]; try done.
  rewrite !Z.compare_gt_iff. lia.
Qed.

Lemma sort_by_load_head_least (l : LoadMap) (e : string * option LoadData)
    (rest : LoadMap) :
  sort_by_load l = e :: rest ->
  forall x, x ∈ l -> compare_load e x <> Gt.
Proof.
  unfold sort_by_load. revert e rest.
  induction l as [|y ys IH]; intros e rest Hsort x Hx; [by apply elem_of_nil in Hx|].
  simpl in Hsort.
  destruct (foldr insert_by_load [] ys) as [|m ms] eqn:Hys.
  - assert (ys = []) as ->.
    { destruct ys as [|z zs]; [done|]. exfalso.
      assert (z ∈ foldr insert_by_load [] (z :: zs)) as Hz
        by (apply (sort_by_load_elem z (z :: zs)); by left).
      rewrite Hys in Hz. by apply elem_of_nil in Hz. }
    simpl in Hsort. injection Hsort as <- <-.
    apply list_elem_of_singleton in Hx as ->.
    unfold compare_load. destruct (effective_load y.2); [|done].
    by rewrite Z.compare_refl.
  - simpl in Hsort. specialize (IH m ms eq_refl).
    destruct (compare_load y m) eqn:Hym; injection Hsort as <- <-.
    + apply elem_of_cons in Hx as [->|Hx].
      * unfold compare_load. destruct (effective_load y.2); [|done].
        by rewrite Z.compare_refl.
      * apply (compare_load_trans y m x); [congruence|by apply IH].
    + apply elem_of_cons in Hx as [->|Hx].
      * unfold compare_load. destruct (effective_load y.2); [|done].
        by rewrite Z.compare_refl.
      * apply (compare_load_trans y m x); [congruence|by apply IH].
    + apply elem_of_cons in Hx as [->|Hx].
      * apply compare_load_flip in Hym. congruence.
      * by apply IH.
Qed.

(** Without a load map under the key it is called with, sampling stores
    nothing. *)
Lemma updateAll_no_map (serviceType : string) (samples : list (string * MetricsReply))
    (g : Gateway) :
  serviceLoads g !! serviceType = None ->
  updateAll serviceType samples g = g.
Proof.
  intros Hnone. unfold updateAll.
  induction samples as [|[instance reply] rest IH]; simpl; [done|].
  unfold updateServiceLoad at 2. simpl. destruct reply; rewrite ?Hnone; simpl; apply IH.
Qed.

(** Sampling writes load maps only. *)
Lemma updateAll_frame (serviceType : string) (samples : list (string * MetricsReply))
    (g : Gateway) :
  circuitBreakers (updateAll serviceType samples g) = circuitBreakers g
  /\ healthStatus (updateAll serviceType samples g) = healthStatus g
  /\ circuitBreakerStatus (updateAll serviceType samples g) = circuitBreakerStatus g.
Proof.
  unfold updateAll. revert g.
  induction samples as [|[instance reply] rest IH]; intros g; simpl; [done|].
  destruct (IH (updateServiceLoad serviceType instance reply g).1) as (-> & -> & ->).
  unfold updateServiceLoad. by repeat case_match.
Qed.

Lemma selectServiceInstance_frame (serviceType : string) (instances : list string)
    (samples : list (string * MetricsReply)) (g : Gateway) :
  circuitBreakers (selectServiceInstance serviceType instances samples g).1
  = circuitBreakers g.
Proof.
  unfold selectServiceInstance.
  repeat case_match; simpl; try done; apply updateAll_frame.
Qed.

(** Called with a key under which [serviceLoads] has no map, the selector
    answers with the first healthy instance, whatever the loads are. *)
Lemma selectServiceInstance_no_map (serviceType : string) (instances : list string)
    (samples : list (string * MetricsReply)) (g : Gateway) :
  serviceLoads g !! serviceType = None ->
  List.filter (isHealthy g serviceType) instances <> [] ->
  selectServiceInstance serviceType instances samples g
  = (g, head (List.filter (isHealthy g serviceType) instances)).
Proof.
  intros Hnone Hhealthy. unfold selectServiceInstance.
  destruct instances as [|i rest]; [done|].
  destruct (List.filter (isHealthy g serviceType) (i :: rest)) as [|h hs] eqn:Hf; [done|].
  cbv zeta. by rewrite (updateAll_no_map _ _ _ Hnone), Hnone.
Qed.

Lemma first_or_elem (loads : LoadMap) (healthyInstances : list string) (i : string) :
  (forall e, e ∈ loads -> e.1 ∈ healthyInstances) ->
  first_or loads healthyInstances = Some i -> i ∈ healthyInstances.
Proof.
  intros Hloads. unfold first_or.
  destruct loads as [|[instance v] rest].
  - intros Hh. by apply head_Some_elem_of.
  - case_bool_decide.
    + intros Hh. by apply head_Some_elem_of.
    + intros [= <-]. apply (Hloads (instance, v)). by left.
Qed.

Lemma first_or_is_Some (loads : LoadMap) (healthyInstances : list string) :
  healthyInstances <> [] -> is_Some (first_or loads healthyInstances).
Proof.
  intros Hne. unfold first_or.
  destruct healthyInstances as [|h hs]; [done|].
  destruct loads as [|[instance v] rest]; simpl; [by eexists|].
  case_bool_decide; by eexists.
Qed.

(** Where the selector's answer comes from. *)
Lemma selectServiceInstance_answer (serviceType : string) (instances : list string)
    (samples : list (string * MetricsReply)) (g : Gateway) :
  let selected := (selectServiceInstance serviceType instances samples g).2 in
  (forall i, selected = Some i -> i ∈ instances)
  /\ (selected = None <-> instances = [])
  /\ (List.filter (isHealthy g serviceType) instances = [] ->
      selected = head instances).
Proof.
  simpl. unfold selectServiceInstance.
  destruct instances as [|i0 rest]; [by repeat split|].
  set (instances := i0 :: rest).
  destruct (List.filter (isHealthy g serviceType) instances) as [|h hs] eqn:Hf.
  { simpl. repeat split; try done. intros i [= <-]. by left. }
  assert (forall i, i ∈ h :: hs -> i ∈ instances) as Hsub.
  { intros i Hi. rewrite <- Hf in Hi. apply list_elem_of_In in Hi.
    apply filter_In in Hi. apply list_elem_of_In. tauto. }
  destruct (serviceLoads (updateAll serviceType samples g) !! serviceType)
    as [serviceLoadMap|]; simpl.
  - set (loads := sort_by_load _).
    assert (forall e, e ∈ loads -> e.1 ∈ h :: hs) as Hloads.
    { intros e He. unfold loads in He.
      apply (proj1 (sort_by_load_elem _ _)) in He. apply list_elem_of_In in He.
      apply filter_In in He. destruct He as [_ He]. by apply bool_decide_eq_true in He. }
    split; [|split].
    + intros i Hi. apply Hsub. by apply (first_or_elem loads).
    + split; [|done]. intros Hnone.
      destruct (first_or_is_Some loads (h :: hs)) as [i Hi]; [done|]. congruence.
    + done.
  - split; [|split]; try done. intros i [= <-]. apply Hsub. by left.
Qed.

(** C8. The selector's answer is an element of the list it was given; it is
    [null] exactly when that list is empty; and when no instance is healthy
    it is the first element of the list. *)
Theorem selectServiceInstance_member (serviceType : string) (instances : list string)
    (samples : list (string * MetricsReply)) (g : Gateway) :
  let selected := (selectServiceInstance serviceType instances samples g).2 in
  (forall i, selected = Some i -> i ∈ instances)
  /\ (selected = None <-> instances = [])
  /\ (List.filter (isHealthy g serviceType) instances = [] ->
      selected = head instances).
Proof. exact (selectServiceInstance_answer serviceType instances samples g). Qed.

(** C7. For service type A, as the routes call the selector (line 601),
    with three healthy instances whose samples report 30, 5 and 50 requests
    per second, the selector answers with the first one, at 30, not with
    the one at 5, and the request is forwarded there: [serviceLoads] has its
    maps under [serviceA] and [serviceB], so under the key [A] there is no
    map, no sample is stored and the sort is not reached. *)
Theorem selectServiceInstance_ignores_load :
  selectServiceInstance "A" ["10.0.0.1"; "10.0.0.2"; "10.0.0.3"]
    [("10.0.0.1", rps 30); ("10.0.0.2", rps 5); ("10.0.0.3", rps 50)]
    three_healthy
  = (three_healthy, Some "10.0.0.1")
  /\ calls <$> routeToService default_config "A" get_me world_three three_healthy
     = Some [Forward "http://10.0.0.1:5000/sA/api/users/auth/me";
             RecordSuccess "serviceA"].
Proof.
  split.
  - rewrite selectServiceInstance_no_map; [|by vm_compute|by vm_compute].
    f_equal.
  - vm_compute. reflexivity.
Qed.

Lemma selectServiceInstance_member_witness :
  (selectServiceInstance "A" ["10.0.0.1"; "10.0.0.2"]
     [("10.0.0.1", rps 10); ("10.0.0.2", rps 40)] one_instance).2
  <> None.
Proof.
  intros Hnone.
  apply (proj1 (proj1 (proj2 (selectServiceInstance_member "A" ["10.0.0.1"; "10.0.0.2"]
    [("10.0.0.1", rps 10); ("10.0.0.2", rps 40)] one_instance)))) in Hnone.
  discriminate.
Defined.

(** ** The router *)

Lemma recordSuccessOf_lookup (service : string) (g : Gateway) (b : Breaker) :
  circuitBreakers g !! service = Some b ->
  exists g', recordSuccessOf service g = Some g'
    /\ circuitBreakers g' = <[service := recordSuccess b]> (circuitBreakers g).
Proof.
  intros Hb. unfold recordSuccessOf. rewrite (withBreaker_lookup _ _ _ _ Hb).
  simpl. by eexists.
Qed.

Lemma recordFailureOf_lookup (cfg : Config) (service : string) (now : Z)
    (g : Gateway) (b : Breaker) :
  circuitBreakers g !! service = Some b ->
  exists g', recordFailureOf cfg service now g = Some g'
    /\ circuitBreakers g' = <[service := (recordFailure cfg now b).1]> (circuitBreakers g).
Proof.
  intros Hb. unfold recordFailureOf. rewrite (withBreaker_lookup _ _ _ _ Hb).
  simpl. destruct (recordFailure cfg now b).2.
  - simpl. rewrite lookup_insert_eq. simpl. by eexists.
  - by eexists.
Qed.

Lemma gate_false_unchanged (cfg : Config) (now : Z) (b : Breaker) :
  (checkCircuitBreaker cfg now b).2 = false ->
  checkCircuitBreaker cfg now b = (b, false).
Proof. unfold checkCircuitBreaker. by repeat case_match. Qed.

(** Every request to a service that has a breaker record gets a response,
    in one of the four ways. *)
Lemma routeToService_routes (cfg : Config) (serviceType : string) (req : Request)
    (w : World) (g : Gateway) (b : Breaker) :
  circuitBreakers g !! ("service" +:+ serviceType) = Some b ->
  exists out, routeToService cfg serviceType req w g = Some out
    /\ Route cfg serviceType req w g b out.
Proof.
  intros Hb. unfold routeToService.
  rewrite (withBreaker_lookup _ _ _ _ Hb). simpl.
  set (name := "service" +:+ serviceType) in *.
  set (gate := checkCircuitBreaker cfg (gate_now w) b).
  set (g1 := set_circuitBreakers _ g).
  assert (circuitBreakers g1 = <[name := gate.1]> (circuitBreakers g)) as Hg1 by done.
  destruct (gate.2) eqn:Hpass; simpl.
  2:{ eexists. split; [done|]. apply RouteGated.
      - by apply gate_false_unchanged.
      - f_equal. unfold g1, gate. rewrite (gate_false_unchanged _ _ _ Hpass). simpl.
        by apply set_same_breaker. }
  destruct (getServiceIPs (redisConnected w) (lRange w)) as [|ip ips] eqn:Hips.
  { eexists. split; [done|]. apply RouteNoInstance; try done. left. by rewrite Hips. }
  rewrite <- Hips.
  pose proof (selectServiceInstance_answer serviceType
                (getServiceIPs (redisConnected w) (lRange w)) (samples w) g1) as Hsel.
  pose proof (selectServiceInstance_frame serviceType
                (getServiceIPs (redisConnected w) (lRange w)) (samples w) g1) as Hframe.
  destruct (selectServiceInstance serviceType
              (getServiceIPs (redisConnected w) (lRange w)) (samples w) g1)
    as [g2 selected]. cbn [fst snd] in Hsel, Hframe.
  destruct Hsel as (Hmem & Hnull & _).
  assert (circuitBreakers g2 !! name = Some gate.1) as Hb2.
  { rewrite Hframe, Hg1. apply lookup_insert_eq. }
  destruct selected as [instance|]; cycle 1.
  { exfalso. rewrite Hips in Hnull. by destruct Hnull as [Hnull _]; specialize (Hnull eq_refl). }
  case_bool_decide as Hempty.
  { eexists. split; [done|]. apply RouteNoInstance; try done.
    right. subst instance. by apply Hmem. }
  destruct (axios cfg (backend w _)) as [status data|error] eqn:Hax.
  - destruct (recordSuccessOf_lookup name g2 _ Hb2) as (g3 & -> & Hg3). simpl.
    eexists. split; [done|].
    apply (RouteResolved _ _ _ _ _ _ _ instance status data); try done.
    + by apply Hmem.
    + simpl. rewrite Hg3, Hframe, Hg1. by rewrite insert_insert_eq.
  - destruct (recordFailureOf_lookup cfg name (outcome_now w) g2 _ Hb2)
      as (g3 & -> & Hg3). simpl.
    eexists. split; [done|].
    apply (RouteRejected _ _ _ _ _ _ _ instance error); try done.
    + by apply Hmem.
    + simpl. rewrite Hg3, Hframe, Hg1. by rewrite insert_insert_eq.
Qed.

Lemma validateStatus_2xx (status : Z) :
  validateStatus status = true <-> 200 <= status < 300.
Proof. unfold validateStatus. rewrite andb_true_iff, Z.leb_le, Z.ltb_lt. tauto. Qed.

Lemma checkCircuitBreaker_failures (cfg : Config) (now : Z) (b : Breaker) :
  failures (checkCircuitBreaker cfg now b).1 = failures b.
Proof. unfold checkCircuitBreaker. by repeat case_match. Qed.

Lemma recordSuccess_failures (b : Breaker) :
  failures (recordSuccess b) = failures b \/ failures (recordSuccess b) = 0.
Proof. unfold recordSuccess. destruct (state b); simpl; tauto. Qed.

Lemma recordFailure_failures (cfg : Config) (now : Z) (b : Breaker) :
  failures (recordFailure cfg now b).1 = failures b + 1
  \/ failures (recordFailure cfg now b).1 = 1.
Proof. unfold recordFailure. repeat case_match; simpl; tauto. Qed.

Lemma error_response_status (status : Z) (data : Json) :
  status <> 0 ->
  status_code (error_response (status_error status data)) = status.
Proof.
  intros Hs. unfold error_response, status_error. simpl.
  assert ((status =? 0) = false) as -> by by apply Z.eqb_neq.
  by repeat case_match.
Qed.

(** C1 does not hold as the specification words it: a backend reply 404 to
    a request forwarded for service A is accounted as a failure, the failure
    count of the breaker goes from 0 to 1, and the body sent to the client
    is not the one the backend sent. *)
Lemma client_error_recorded_as_failure :
  failures <$> circuitBreakers one_instance !! "serviceA" = Some 0
  /\ (fun out => (calls out, response out,
                  failures <$> circuitBreakers (gateway_after out) !! "serviceA"))
       <$> routeToService default_config "A" get_me
             (world_replying 1000 (Responded 404 not_found)) one_instance
     = Some ([Forward "http://10.0.0.1:5000/sA/api/users/auth/me";
              RecordFailure "serviceA"],
             {| status_code := 404;
                payload := JObj [("detail", JStr "Not found")] |},
             Some 1).
Proof. split; vm_compute; reflexivity. Qed.

(** C1, amended. For every forwarded request the backend replies to: if the
    status is 2xx, the router records a success on the service's breaker and
    no failure, sends the backend's status and body unchanged, and the
    failure count is as before, or zero when the success closes a HALF_OPEN
    breaker; with any other status (3xx, 4xx, 5xx) the client rejects the
    reply, the router records a failure, the failure count is incremented
    (or set to 1), and the client gets the backend's status with a body
    that holds only [detail]. *)
Theorem forwarded_reply_accounting (cfg : Config) (serviceType : string)
    (req : Request) (w : World) (g : Gateway) (b : Breaker) (out : Outcome)
    (target : string) (status : Z) (data : Json) :
  circuitBreakers g !! ("service" +:+ serviceType) = Some b ->
  routeToService cfg serviceType req w g = Some out ->
  head (calls out) = Some (Forward target) ->
  backend w target = Responded status data ->
  let gated := (checkCircuitBreaker cfg (gate_now w) b).1 in
  (200 <= status < 300 ->
   calls out = [Forward target; RecordSuccess ("service" +:+ serviceType)]
   /\ response out = {| status_code := status; payload := data |}
   /\ circuitBreakers (gateway_after out) !! ("service" +:+ serviceType)
      = Some (recordSuccess gated)
   /\ (failures (recordSuccess gated) = failures b
       \/ failures (recordSuccess gated) = 0))
  /\ (status < 200 \/ 300 <= status ->
      calls out = [Forward target; RecordFailure ("service" +:+ serviceType)]
      /\ response out = error_response (status_error status data)
      /\ (status <> 0 -> status_code (response out) = status)
      /\ (exists detail, payload (response out) = JObj [("detail", detail)])
      /\ circuitBreakers (gateway_after out) !! ("service" +:+ serviceType)
         = Some (recordFailure cfg (outcome_now w) gated).1
      /\ (failures (recordFailure cfg (outcome_now w) gated).1 = failures b + 1
          \/ failures (recordFailure cfg (outcome_now w) gated).1 = 1)).
Proof.
  intros Hb Hroute Hcall Hreply gated.
  destruct (routeToService_routes cfg serviceType req w g b Hb) as (out' & Hout & HR).
  assert (out' = out) as -> by congruence.
  destruct HR as [_ ->|_ Hc|instance s d _ _ tgt Hax Hc Hresp Hcbs
                 |instance error _ _ tgt Hax Hc Hresp Hcbs];
    try (rewrite Hc in Hcall); try done; simpl in Hcall;
    injection Hcall as <-; rewrite Hreply in Hax; simpl in Hax;
    destruct (validateStatus status) eqn:Hv; try done.
  - injection Hax as <- <-. split.
    + intros _. repeat split; try done.
      * rewrite Hcbs. apply lookup_insert_eq.
      * unfold gated. rewrite <- (checkCircuitBreaker_failures cfg (gate_now w) b).
        apply recordSuccess_failures.
    + intros Hs. apply validateStatus_2xx in Hv. lia.
  - injection Hax as <-. split.
    + intros Hs. apply validateStatus_2xx in Hs. congruence.
    + intros _. rewrite Hresp. repeat split; try done.
      * apply error_response_status.
      * unfold error_response. case_bool_decide; by eexists.
      * rewrite Hcbs. apply lookup_insert_eq.
      * unfold gated. rewrite <- (checkCircuitBreaker_failures cfg (gate_now w) b).
        apply recordFailure_failures.
Qed.

Lemma forwarded_reply_accounting_witness :
  calls (outcome_of (routeToService default_config "A" get_me
                       (world_replying 1000 (Responded 200 not_found)) one_instance))
  = [Forward "http://10.0.0.1:5000/sA/api/users/auth/me"; RecordSuccess "serviceA"]
  /\ response (outcome_of (routeToService default_config "A" get_me
                       (world_replying 1000 (Responded 200 not_found)) one_instance))
     = {| status_code := 200; payload := not_found |}.
Proof.
  pose proof (forwarded_reply_accounting default_config "A" get_me
    (world_replying 1000 (Responded 200 not_found)) one_instance initial_breaker
    (outcome_of (routeToService default_config "A" get_me
                   (world_replying 1000 (Responded 200 not_found)) one_instance))
    "http://10.0.0.1:5000/sA/api/users/auth/me" 200 not_found) as H.
  destruct H as [H _].
  - vm_compute. reflexivity.
  - vm_compute. reflexivity.
  - vm_compute. reflexivity.
  - reflexivity.
  - destruct H as (Hc & Hr & _); [lia|]. split; assumption.
Defined.

(** C5 does not hold as the specification words it: after three failures
    have opened the breaker of service A, a request that comes more than
    [ERROR_TIMEOUT] later while the registry is disconnected moves the
    breaker to HALF_OPEN and is then answered 503 "serviceA is not
    available or Redis is disconnected": it is not forwarded. *)
Lemma open_breaker_empty_registry :
  state <$> circuitBreakers (gateway (live_all default_config three_failures
                                        initial_monitor)) !! "serviceA"
  = Some OPEN
  /\ (fun out => (response out, calls out,
                  state <$> circuitBreakers (gateway_after out) !! "serviceA"))
       <$> routeToService default_config "A" get_me
             (in_world (incoming_no_registry 30000))
             (gateway (live_all default_config three_failures initial_monitor))
     = Some (json_detail 503
               (JStr "serviceA is not available or Redis is disconnected"),
             [], Some HALF_OPEN).
Proof. split; vm_compute; reflexivity. Qed.

(** C5, amended. A request for a service whose breaker is OPEN. When more
    than [ERROR_TIMEOUT] ms have passed since [lastFailure], the gate moves
    the breaker to HALF_OPEN with [consecutiveReroutes] at 0 and lets the
    request through. Then, with an empty list from the registry, the
    answer is 503 "service<Type> is not available or Redis is
    disconnected", nothing is forwarded and the breaker stays HALF_OPEN;
    with a list that is not empty the selector's instance is taken from
    it, and unless its name is empty (503 "No available instances for
    service<Type>") the request is forwarded to it: a reply the client
    accepts is relayed and recorded as a success on the HALF_OPEN record,
    any other outcome is answered from the error and recorded as a failure
    on it. When no more than [ERROR_TIMEOUT] ms have passed, the breaker
    stays OPEN, nothing in the gateway changes, nothing is forwarded, and
    the answer is 503 "service<Type> is currently unavailable (Circuit
    Breaker: OPEN)". *)
Theorem open_breaker_dispatch (cfg : Config) (serviceType : string) (req : Request)
    (w : World) (g : Gateway) (b : Breaker) :
  circuitBreakers g !! ("service" +:+ serviceType) = Some b ->
  state b = OPEN ->
  let serviceName := "service" +:+ serviceType in
  let half :=
    {| failures := failures b;
       lastFailure := lastFailure b;
       state := HALF_OPEN;
       reroutes := reroutes b;
       lastReroute := lastReroute b;
       consecutiveReroutes := 0 |} in
  let probing := set_circuitBreakers (<[serviceName := half]> (circuitBreakers g)) g in
  let instances := getServiceIPs (redisConnected w) (lRange w) in
  (gate_now w - toNumber (lastFailure b) > ERROR_TIMEOUT cfg ->
   checkCircuitBreaker cfg (gate_now w) b = (half, true)
   /\ exists out, routeToService cfg serviceType req w g = Some out
        /\ (instances = [] ->
            out = {| gateway_after := probing;
                     response :=
                       json_detail 503
                         (JStr (serviceName
                                  +:+ " is not available or Redis is disconnected"));
                     calls := [] |})
        /\ (instances <> [] ->
            exists instance,
              (selectServiceInstance serviceType instances (samples w) probing).2
              = Some instance
              /\ instance ∈ instances
              /\ (instance = "" ->
                  out = {| gateway_after :=
                             (selectServiceInstance serviceType instances (samples w)
                                probing).1;
                           response :=
                             json_detail 503
                               (JStr ("No available instances for " +:+ serviceName));
                           calls := [] |})
              /\ (instance <> "" ->
                  let target :=
                    "http://" +:+ instance +:+ ":" +:+ SERV_REST_PORT cfg +:+ url req in
                  match axios cfg (backend w target) with
                  | Resolved status data =>
                      calls out = [Forward target; RecordSuccess serviceName]
                      /\ response out = {| status_code := status; payload := data |}
                      /\ circuitBreakers (gateway_after out)
                         = <[serviceName := recordSuccess half]> (circuitBreakers g)
                  | Rejected error =>
                      calls out = [Forward target; RecordFailure serviceName]
                      /\ response out = error_response error
                      /\ circuitBreakers (gateway_after out)
                         = <[serviceName := (recordFailure cfg (outcome_now w) half).1]>
                             (circuitBreakers g)
                  end)))
  /\ (gate_now w - toNumber (lastFailure b) <= ERROR_TIMEOUT cfg ->
      checkCircuitBreaker cfg (gate_now w) b = (b, false)
      /\ routeToService cfg serviceType req w g
         = Some {| gateway_after := g;
                   response :=
                     json_detail 503
                       (JStr (serviceName
                                +:+ " is currently unavailable (Circuit Breaker: OPEN)"));
                   calls := [] |}).
Proof.
  intros Hb Hopen serviceName half probing instances. split.
  - intros Hlate. apply gtb_true_iff in Hlate.
    assert (checkCircuitBreaker cfg (gate_now w) b = (half, true)) as Hgate.
    { unfold checkCircuitBreaker. by rewrite Hopen, Hlate. }
    split; [done|].
    unfold routeToService. fold serviceName.
    rewrite (withBreaker_lookup _ _ _ _ Hb), Hgate.
    cbn [fst snd negb mbind option_bind]. fold serviceName probing instances.
    destruct instances as [|i0 rest] eqn:Hinst.
    { eexists. split; [done|]. split; [done|]. by intros Hne. }
    pose proof (selectServiceInstance_answer serviceType (i0 :: rest) (samples w) probing)
      as (Hmem & Hnull & _).
    pose proof (selectServiceInstance_frame serviceType (i0 :: rest) (samples w) probing)
      as Hframe.
    destruct (selectServiceInstance serviceType (i0 :: rest) (samples w) probing)
      as [g2 selected]. cbn [fst snd] in *.
    destruct selected as [instance|]; cycle 1.
    { exfalso. by destruct Hnull as [Hnull _]; specialize (Hnull eq_refl). }
    cbv beta iota.
    assert (circuitBreakers g2 !! serviceName = Some half) as Hb2.
    { rewrite Hframe. unfold probing. simpl. apply lookup_insert_eq. }
    assert (circuitBreakers g2 = <[serviceName := half]> (circuitBreakers g)) as Hcbs2
      by (by rewrite Hframe).
    destruct (decide (instance = "")) as [Hempty|Hempty].
    { rewrite bool_decide_eq_true_2 by done.
      eexists. split; [done|]. split; [done|]. intros _.
      exists instance. split; [done|]. split; [by apply Hmem|]. split; [done|done]. }
    rewrite bool_decide_eq_false_2 by done.
    destruct (axios cfg (backend w _)) as [status data|error] eqn:Hax.
    + destruct (recordSuccessOf_lookup serviceName g2 _ Hb2) as (g3 & -> & Hg3).
      eexists. split; [done|]. split; [done|]. intros _.
      exists instance. split; [done|]. split; [by apply Hmem|]. split; [done|].
      intros _. cbn zeta. rewrite Hax. simpl. split; [done|]. split; [done|].
      rewrite Hg3, Hcbs2. by rewrite insert_insert_eq.
    + destruct (recordFailureOf_lookup cfg serviceName (outcome_now w) g2 _ Hb2)
        as (g3 & -> & Hg3).
      eexists. split; [done|]. split; [done|]. intros _.
      exists instance. split; [done|]. split; [by apply Hmem|]. split; [done|].
      intros _. cbn zeta. rewrite Hax. simpl. split; [done|]. split; [done|].
      rewrite Hg3, Hcbs2. by rewrite insert_insert_eq.
  - intros Hearly. apply gtb_false_iff in Hearly.
    assert (checkCircuitBreaker cfg (gate_now w) b = (b, false)) as Hgate.
    { unfold checkCircuitBreaker. by rewrite Hopen, Hearly. }
    split; [done|].
    unfold routeToService. fold serviceName.
    rewrite (withBreaker_lookup _ _ _ _ Hb), Hgate.
    cbn [fst snd negb mbind option_bind]. by rewrite set_same_breaker.
Qed.

Lemma open_breaker_dispatch_witness :
  (exists out,
     routeToService default_config "A" get_me
       (world_replying 30000 (Responded 200 JNull))
       (gateway (live_all default_config three_failures initial_monitor)) = Some out
     /\ calls out = [Forward "http://10.0.0.1:5000/sA/api/users/auth/me";
                     RecordSuccess "serviceA"]
     /\ response out = {| status_code := 200; payload := JNull |}
     /\ state <$> circuitBreakers (gateway_after out) !! "serviceA" = Some CLOSED)
  /\ routeToService default_config "A" get_me
       (world_replying 5000 (Responded 200 JNull))
       (gateway (live_all default_config three_failures initial_monitor))
     = Some {| gateway_after :=
                 gateway (live_all default_config three_failures initial_monitor);
               response :=
                 json_detail 503
                   (JStr "serviceA is currently unavailable (Circuit Breaker: OPEN)");
               calls := [] |}.
Proof.
  split.
  - destruct (proj1 (open_breaker_dispatch default_config "A" get_me
        (world_replying 30000 (Responded 200 JNull))
        (gateway (live_all default_config three_failures initial_monitor))
        {| failures := 3; lastFailure := Some 3010; state := OPEN;
           reroutes := 0; lastReroute := None; consecutiveReroutes := 0 |}
        ltac:(vm_compute; reflexivity) eq_refl) ltac:(simpl; lia))
      as (_ & out & Hroute & _ & Hforward).
    destruct Hforward as (instance & Hsel & _ & _ & Hsent); [done|].
    assert (instance = "10.0.0.1") as ->.
    { vm_compute in Hsel. by injection Hsel as <-. }
    specialize (Hsent ltac:(done)). cbn zeta in Hsent.
    change (axios default_config
              (backend (world_replying 30000 (Responded 200 JNull))
                 ("http://" +:+ "10.0.0.1" +:+ ":" +:+ SERV_REST_PORT default_config
                    +:+ url get_me)))
      with (Resolved 200 JNull) in Hsent.
    destruct Hsent as (Hcalls & Hresp & Hcbs).
    exists out. split; [done|]. split; [done|]. split; [done|].
    rewrite Hcbs, lookup_insert_eq. reflexivity.
  - refine (proj2 (proj2 (open_breaker_dispatch default_config "A" get_me
      (world_replying 5000 (Responded 200 JNull))
      (gateway (live_all default_config three_failures initial_monitor))
      {| failures := 3; lastFailure := Some 3010; state := OPEN;
         reroutes := 0; lastReroute := None; consecutiveReroutes := 0 |} _ _) _)).
    + vm_compute. reflexivity.
    + reflexivity.
    + simpl. lia.
Defined.

(** C9 does not hold as the specification words it: a request that finds
    the breaker of service A OPEN since 18 s, is let through as the probe
    and succeeds, closes the breaker, and the reroutes counter is 0 before
    and after. *)
Lemma probe_leaves_reroutes :
  (fun b => (state b, reroutes b)) <$> circuitBreakers (open_since 1000) !! "serviceA"
  = Some (OPEN, 0)
  /\ (fun out => (calls out,
                  (fun b => (state b, reroutes b))
                    <$> circuitBreakers (gateway_after out) !! "serviceA"))
       <$> routeToService default_config "A" get_me
             (world_replying 19000 (Responded 200 JNull)) (open_since 1000)
     = Some ([Forward "http://10.0.0.1:5000/sA/api/users/auth/me";
              RecordSuccess "serviceA"],
             Some (CLOSED, 0)).
Proof. split; vm_compute; reflexivity. Qed.

(** C9, amended. [reroutes] is incremented, by one, by [recordReroute]
    alone; the gate, a recorded success and a recorded failure leave it as
    it is, and so does every request that goes through [routeToService],
    for every service, a probe that takes a breaker from OPEN to HALF_OPEN
    included: no request path calls [recordReroute]. *)
Theorem reroutes_only_by_recordReroute (cfg : Config) :
  (forall (op : BreakerOp) (b : Breaker),
     reroutes (apply_op cfg op b)
     = match op with
       | OpReroute _ => reroutes b + 1
       | _ => reroutes b
       end)
  /\ (forall (serviceType : string) (req : Request) (w : World) (g : Gateway)
        (out : Outcome) (service : string),
        routeToService cfg serviceType req w g = Some out ->
        reroutes <$> circuitBreakers (gateway_after out) !! service
        = reroutes <$> circuitBreakers g !! service).
Proof.
  split.
  - intros [now| |now|now] b; simpl.
    + apply checkCircuitBreaker_reroutes.
    + apply recordSuccess_reroutes.
    + apply recordFailure_reroutes.
    + unfold recordReroute. by repeat case_match.
  - intros serviceType req w g out service Hroute.
    destruct (circuitBreakers g !! ("service" +:+ serviceType)) as [b|] eqn:Hb; cycle 1.
    { unfold routeToService, withBreaker in Hroute. by rewrite Hb in Hroute. }
    destruct (routeToService_routes cfg serviceType req w g b Hb) as (out' & Hout & HR).
    assert (out' = out) as -> by congruence.
    destruct HR as [_ ->|_ _ _ Hcbs _|? ? ? _ _ ? _ _ _ Hcbs|? ? _ _ ? _ _ _ Hcbs];
      [done|..]; rewrite Hcbs;
      (destruct (decide (service = "service" +:+ serviceType)) as [->|Hne];
       [rewrite lookup_insert_eq, Hb; simpl; f_equal
       |by rewrite lookup_insert_ne]).
    + apply checkCircuitBreaker_reroutes.
    + rewrite recordSuccess_reroutes. apply checkCircuitBreaker_reroutes.
    + rewrite (proj1 (recordFailure_reroutes _ _ _)). apply checkCircuitBreaker_reroutes.
Qed.

Lemma reroutes_only_by_recordReroute_witness :
  reroutes <$> circuitBreakers
     (gateway_after
        (outcome_of (routeToService default_config "A" get_me
                       (world_replying 19000 (Responded 200 JNull)) (open_since 1000))))
     !! "serviceA"
  = reroutes <$> circuitBreakers (open_since 1000) !! "serviceA".
Proof.
  apply (proj2 (reroutes_only_by_recordReroute default_config) "A" get_me
           (world_replying 19000 (Responded 200 JNull))).
  vm_compute. reflexivity.
Defined.

(** ** The admission limiter *)

Lemma run_listeners_count (res : nat) (listeners : list nat) (counter : Z) :
  run_listeners res listeners counter
  = counter - Z.of_nat (listeners_of res listeners).
Proof.
  unfold listeners_of. revert counter.
  induction listeners as [|r rest IH]; intros counter; simpl; [lia|].
  rewrite IH. case_bool_decide; simpl; lia.
Qed.

Lemma listeners_split (res : nat) (listeners : list nat) :
  length listeners
  = (listeners_of res listeners
     + length (List.filter (fun r => negb (bool_decide (r = res))) listeners))%nat.
Proof.
  unfold listeners_of. induction listeners as [|r rest IH]; simpl; [done|].
  case_bool_decide; simpl; lia.
Qed.


Lemma listeners_of_other (res other : nat) (listeners : list nat) :
  other <> res ->
  listeners_of res (List.filter (fun r => negb (bool_decide (r = other))) listeners)
  = listeners_of res listeners.
Proof.
  intros Hne. unfold listeners_of.
  induction listeners as [|r rest IH]; simpl; [done|].
  repeat (case_bool_decide; simpl); try congruence; try lia.
Qed.




Lemma step_preserves_inv (cfg : Config) (a : Admission) (e : Event) :
  admission_inv cfg a -> admission_inv cfg (step cfg a e).
Proof.
  intros [Hcount Hmax]. destruct e as [res|res]; simpl.
  - unfold taskLimiter.
    destruct (concurrentRequests a >=? MAX_CONCURRENT_REQUESTS cfg) eqn:Hfull; simpl.
    + done.
    + apply geb_false_iff in Hfull. split; simpl; lia.
  - unfold emitFinish, admission_inv. simpl.
    rewrite run_listeners_count.
    pose proof (listeners_split res (finishListeners a)). lia.
Qed.

Lemma run_preserves_inv (cfg : Config) (trace : list Event) (a : Admission) :
  admission_inv cfg a -> admission_inv cfg (run cfg trace a).
Proof.
  unfold run. revert a.
  induction trace as [|e rest IH]; intros a Hinv; simpl; [done|].
  apply IH. by apply step_preserves_inv.
Qed.

(** Events of other responses leave the listeners of a response alone. *)
Lemma run_listeners_of_other (cfg : Config) (res : nat) (trace : list Event)
    (a : Admission) :
  Forall (fun e => event_res e <> res) trace ->
  listeners_of res (finishListeners (run cfg trace a))
  = listeners_of res (finishListeners a).
Proof.
  unfold run. intros Hother. revert a.
  induction Hother as [|e rest He _ IH]; intros a; simpl; [done|].
  rewrite IH. destruct e as [other|other]; simpl in *.
  - unfold taskLimiter. case_match; simpl; [done|].
    unfold listeners_of. simpl. by case_bool_decide.
  - by apply listeners_of_other.
Qed.


(** * Further properties of the code *)

(** ** The reconnection strategy *)

(** X1. The client gives up reconnecting exactly when more than an hour
    has been spent or more than ten attempts were made; otherwise it waits
    100 ms per attempt, at most 1000 ms: the cap of 3000 ms is never what
    decides. *)
Theorem retry_strategy_delay (options : RetryOptions) :
  (retry_strategy options = None
   <-> total_retry_time options > 3600000 \/ attempt options > 10)
  /\ (forall delay : Z,
        retry_strategy options = Some delay ->
        delay = attempt options * 100 /\ delay <= 1000).
Proof.
  unfold retry_strategy.
  destruct (total_retry_time options >? 1000 * 60 * 60) eqn:Htotal.
  { apply gtb_true_iff in Htotal. split; [|done]. split; [lia|done]. }
  apply gtb_false_iff in Htotal.
  destruct (attempt options >? 10) eqn:Hattempt.
  { apply gtb_true_iff in Hattempt. split; [|done]. split; [lia|done]. }
  apply gtb_false_iff in Hattempt. split.
  - split; [done|lia].
  - intros delay [= <-]. lia.
Qed.

(** ** Sequences of operations on a breaker record *)

Lemma apply_op_wf (cfg : Config) (op : BreakerOp) (b : Breaker) :
  breaker_wf b -> breaker_wf (apply_op cfg op b).
Proof.
  unfold breaker_wf. intros (Hlast & Hfail & Hcons).
  destruct op as [now| |now|now]; simpl;
    unfold checkCircuitBreaker, recordSuccess, recordFailure, recordReroute;
    repeat case_match; simpl; repeat split; try lia; try done;
    try (intros _; by eexists); try (intros Hs; apply Hlast; congruence).
Qed.

Lemma run_ops_wf (cfg : Config) (ops : list BreakerOp) (b : Breaker) :
  breaker_wf b -> breaker_wf (run_ops cfg ops b).
Proof.
  unfold run_ops. revert b.
  induction ops as [|op rest IH]; intros b Hwf; simpl; [done|].
  apply IH. by apply apply_op_wf.
Qed.

Lemma apply_op_reroutes (cfg : Config) (op : BreakerOp) (b : Breaker) :
  reroutes (apply_op cfg op b)
  = reroutes b + (if request_op op then 0 else 1).
Proof.
  destruct op as [now| |now|now]; simpl.
  - rewrite checkCircuitBreaker_reroutes. lia.
  - rewrite recordSuccess_reroutes. lia.
  - rewrite (proj1 (recordFailure_reroutes _ _ _)). lia.
  - unfold recordReroute. by repeat case_match.
Qed.

(** X2. Whatever operations act on a breaker record from its initial value,
    in whatever order and at whatever times: a record that is not CLOSED has
    a [lastFailure]; [failures] is not negative; [consecutiveReroutes] is
    between 0 and [reroutes]; and [reroutes] is the number of reroutes that
    were recorded. *)
Theorem breaker_record_invariant (cfg : Config) (ops : list BreakerOp) :
  let b := run_ops cfg ops initial_breaker in
  (state b <> CLOSED -> is_Some (lastFailure b))
  /\ 0 <= failures b
  /\ 0 <= consecutiveReroutes b <= reroutes b
  /\ reroutes b
     = Z.of_nat (length (List.filter (fun op => negb (request_op op)) ops)).
Proof.
  simpl. split; [|split; [|split]];
    try (apply (run_ops_wf cfg ops initial_breaker);
         unfold breaker_wf; simpl; repeat split; try lia; done).
  assert (forall b, reroutes (run_ops cfg ops b)
                    = reroutes b
                      + Z.of_nat (length (List.filter (fun op => negb (request_op op)) ops)))
    as Hcount.
  { unfold run_ops. induction ops as [|op rest IH]; intros b; simpl; [lia|].
    rewrite IH, apply_op_reroutes. destruct (request_op op); simpl; lia. }
  rewrite Hcount. simpl. lia.
Qed.

(** X3. On a CLOSED breaker, failures add up whatever lies between them:
    neither the time that passes nor a success recorded in between takes
    one away. As long as the failures recorded stay below
    [ERROR_THRESHOLD], the breaker stays CLOSED and counts them all. *)
Theorem closed_failures_accumulate (cfg : Config) (ops : list BreakerOp) (b : Breaker) :
  forallb request_op ops = true ->
  state b = CLOSED ->
  failures b + Z.of_nat (length (List.filter is_failure ops)) < ERROR_THRESHOLD cfg ->
  state (run_ops cfg ops b) = CLOSED
  /\ failures (run_ops cfg ops b)
     = failures b + Z.of_nat (length (List.filter is_failure ops)).
Proof.
  unfold run_ops. revert b.
  induction ops as [|op rest IH]; intros b Hops Hclosed Hbelow; simpl in *.
  { split; [done|lia]. }
  apply andb_true_iff in Hops as [Hop Hrest].
  destruct op as [now| |now|now]; simpl in *; try done.
  - rewrite gate_not_open by (rewrite Hclosed; discriminate). simpl. by apply IH.
  - unfold recordSuccess. rewrite Hclosed. by apply IH.
  - rewrite recordFailure_below_threshold by lia. simpl.
    destruct (IH {| failures := failures b + 1;
                    lastFailure := Some now;
                    state := state b;
                    reroutes := reroutes b;
                    lastReroute := lastReroute b;
                    consecutiveReroutes := consecutiveReroutes b |})
      as [Hs Hf]; simpl; try done; try lia.
    split; [done|]. rewrite Hf. simpl. lia.
Qed.

Lemma closed_failures_accumulate_witness :
  state (run_ops default_config
           [OpGate 1000; OpFailure 1010; OpGate 90000; OpSuccess; OpGate 200000;
            OpFailure 200010]
           initial_breaker) = CLOSED
  /\ failures (run_ops default_config
           [OpGate 1000; OpFailure 1010; OpGate 90000; OpSuccess; OpGate 200000;
            OpFailure 200010]
           initial_breaker) = 2.
Proof.
  apply (closed_failures_accumulate default_config
           [OpGate 1000; OpFailure 1010; OpGate 90000; OpSuccess; OpGate 200000;
            OpFailure 200010]
           initial_breaker).
  - reflexivity.
  - reflexivity.
  - simpl. lia.
Defined.

Lemma last_cons_default (rest : list Z) (d t : Z) :
  List.last (t :: rest) d = List.last rest t.
Proof.
  revert d t. induction rest as [|r rest IH]; intros d t; [done|].
  change (List.last (t :: r :: rest) d) with (List.last (r :: rest) d).
  by rewrite (IH d r), (IH t r).
Qed.

Lemma recordReroute_in_window (cfg : Config) (now previous : Z) (b : Breaker) :
  lastReroute b = Some previous ->
  previous <> 0 ->
  now - previous <= 5000 ->
  let b' := (recordReroute cfg now b).1 in
  consecutiveReroutes b' = consecutiveReroutes b + 1
  /\ reroutes b' = reroutes b + 1
  /\ lastReroute b' = Some now
  /\ (consecutiveReroutes b + 1 >= REROUTE_THRESHOLD cfg ->
      state b' = OPEN /\ lastFailure b' = Some now)
  /\ (consecutiveReroutes b + 1 < REROUTE_THRESHOLD cfg ->
      state b' = state b /\ lastFailure b' = lastFailure b).
Proof.
  intros Hlast Hprev Hgap. simpl. unfold recordReroute. rewrite Hlast. simpl.
  assert (negb (previous =? 0) && (now - previous <=? 5000) = true) as ->.
  { apply andb_true_iff. split.
    - apply negb_true_iff. by apply Z.eqb_neq.
    - by apply Z.leb_le. }
  destruct (consecutiveReroutes b + 1 >=? REROUTE_THRESHOLD cfg) eqn:Htrip; simpl.
  - apply geb_true_iff in Htrip. repeat split; try done; lia.
  - apply geb_false_iff in Htrip. repeat split; try done; lia.
Qed.

Lemma reroute_all_in_window (cfg : Config) (times : list Z) (previous : Z) (b : Breaker) :
  lastReroute b = Some previous ->
  in_window previous times ->
  let n := Z.of_nat (length times) in
  let b' := reroute_all cfg times b in
  consecutiveReroutes b' = consecutiveReroutes b + n
  /\ reroutes b' = reroutes b + n
  /\ lastReroute b' = Some (List.last times previous)
  /\ (times <> [] -> consecutiveReroutes b + n >= REROUTE_THRESHOLD cfg ->
      state b' = OPEN /\ lastFailure b' = Some (List.last times previous))
  /\ (consecutiveReroutes b + n < REROUTE_THRESHOLD cfg ->
      state b' = state b /\ lastFailure b' = lastFailure b).
Proof.
  unfold reroute_all, run_ops. revert previous b.
  induction times as [|t rest IH]; intros previous b Hlast Hwin.
  { simpl. repeat split; try done; lia. }
  destruct Hwin as (Hprev & Hgap & Hrest).
  destruct (recordReroute_in_window cfg t previous b Hlast Hprev Hgap)
    as (Hc & Hr & Hl & Htrip & Hkeep).
  specialize (IH t (recordReroute cfg t b).1 Hl Hrest).
  cbn [List.map fold_left apply_op length].
  destruct IH as (IHc & IHr & IHl & IHtrip & IHkeep).
  rewrite Nat2Z.inj_succ.
  assert (List.last (t :: rest) previous = List.last rest t) as ->.
  { apply last_cons_default. }
  split; [lia|]. split; [lia|]. split; [done|]. split.
  - intros _ Hge. destruct rest as [|r rest'].
    + simpl. apply Htrip. simpl in Hge. lia.
    + apply IHtrip; [done|]. lia.
  - intros Hlt. destruct IHkeep as [Hs Hf]; [lia|].
    destruct Hkeep as [Hs' Hf']; [lia|]. split; congruence.
Qed.

(** X4. Reroutes recorded in a row, each within 5000 ms of the one before,
    on a record that had none: [consecutiveReroutes] is their number and
    [reroutes] grows by it; once that number reaches [REROUTE_THRESHOLD]
    the breaker is OPEN with [lastFailure] at the last of them, and below
    it the state and [lastFailure] are as they were. *)
Theorem reroute_streak_trips (cfg : Config) (first : Z) (times : list Z) (b : Breaker) :
  lastReroute b = None ->
  in_window first times ->
  let n := Z.of_nat (length (first :: times)) in
  let b' := reroute_all cfg (first :: times) b in
  consecutiveReroutes b' = n
  /\ reroutes b' = reroutes b + n
  /\ (n >= REROUTE_THRESHOLD cfg ->
      state b' = OPEN /\ lastFailure b' = Some (List.last times first))
  /\ (n < REROUTE_THRESHOLD cfg ->
      state b' = state b /\ lastFailure b' = lastFailure b).
Proof.
  intros Hnone Hwin. cbn zeta.
  set (b1 := (recordReroute cfg first b).1).
  assert (reroute_all cfg (first :: times) b = reroute_all cfg times b1) as -> by done.
  assert (consecutiveReroutes b1 = 1 /\ reroutes b1 = reroutes b + 1
          /\ lastReroute b1 = Some first
          /\ (1 >= REROUTE_THRESHOLD cfg ->
              state b1 = OPEN /\ lastFailure b1 = Some first)
          /\ (1 < REROUTE_THRESHOLD cfg ->
              state b1 = state b /\ lastFailure b1 = lastFailure b))
    as (Hc & Hr & Hl & Htrip & Hkeep).
  { unfold b1, recordReroute. rewrite Hnone. simpl.
    destruct (1 >=? REROUTE_THRESHOLD cfg) eqn:Hth; simpl.
    - apply geb_true_iff in Hth. repeat split; try done; lia.
    - apply geb_false_iff in Hth. repeat split; try done; lia. }
  destruct (reroute_all_in_window cfg times first b1 Hl Hwin)
    as (IHc & IHr & _ & IHtrip & IHkeep).
  cbn [length]. rewrite Nat2Z.inj_succ.
  split; [lia|]. split; [lia|]. split.
  - intros Hge. destruct times as [|t rest].
    + simpl. apply Htrip. simpl in Hge. lia.
    + apply IHtrip; [done|]. lia.
  - intros Hlt. destruct IHkeep as [Hs Hf]; [lia|].
    destruct Hkeep as [Hs' Hf']; [lia|]. split; congruence.
Qed.

Lemma reroute_streak_trips_witness :
  state (reroute_all default_config [1000; 3000] initial_breaker) = OPEN
  /\ lastFailure (reroute_all default_config [1000; 3000] initial_breaker) = Some 3000.
Proof.
  refine (proj1 (proj2 (proj2 (reroute_streak_trips default_config 1000 [3000]
                                    initial_breaker _ _))) _).
  - reflexivity.
  - simpl. lia.
  - simpl. lia.
Defined.

(** ** Sequences of requests *)

Lemma withBreaker_fields {A : Type} (service : string) (f : Breaker -> Breaker * A)
    (g g' : Gateway) (a : A) :
  withBreaker service f g = Some (g', a) ->
  serviceLoads g' = serviceLoads g
  /\ healthStatus g' = healthStatus g
  /\ circuitBreakerStatus g' = circuitBreakerStatus g.
Proof.
  unfold withBreaker. destruct (circuitBreakers g !! service) as [b|]; [|done].
  simpl. destruct (f b). by intros [= <- <-].
Qed.

Lemma recordFailure_opened (cfg : Config) (now : Z) (b : Breaker) :
  (recordFailure cfg now b).2 = true -> state (recordFailure cfg now b).1 = OPEN.
Proof. unfold recordFailure. by repeat case_match. Qed.

Lemma recordSuccessOf_fields (service : string) (g g' : Gateway) :
  recordSuccessOf service g = Some g' ->
  serviceLoads g' = serviceLoads g
  /\ healthStatus g' = healthStatus g
  /\ circuitBreakerStatus g' = circuitBreakerStatus g.
Proof.
  unfold recordSuccessOf.
  destruct (withBreaker service _ g) as [[g1 u]|] eqn:Hw; [|done].
  intros [= <-]. by apply withBreaker_fields in Hw.
Qed.

Lemma recordFailureOf_fields (cfg : Config) (service : string) (now : Z)
    (g g' : Gateway) :
  recordFailureOf cfg service now g = Some g' ->
  serviceLoads g' = serviceLoads g
  /\ healthStatus g' = healthStatus g
  /\ (circuitBreakerStatus g' = circuitBreakerStatus g
      \/ circuitBreakerStatus g' = <[service := 1]> (circuitBreakerStatus g)).
Proof.
  unfold recordFailureOf.
  destruct (circuitBreakers g !! service) as [b|] eqn:Hb; cycle 1.
  { unfold withBreaker. by rewrite Hb. }
  rewrite (withBreaker_lookup _ _ _ _ Hb). simpl.
  destruct (recordFailure cfg now b).2 eqn:Hopened.
  - simpl. rewrite lookup_insert_eq. simpl. intros [= <-]. simpl.
    repeat split. right. by rewrite (recordFailure_opened _ _ _ Hopened).
  - intros [= <-]. simpl. repeat split. by left.
Qed.

Lemma selectServiceInstance_state (serviceType : string) (instances : list string)
    (samples : list (string * MetricsReply)) (g : Gateway) :
  (selectServiceInstance serviceType instances samples g).1 = g
  \/ (selectServiceInstance serviceType instances samples g).1
     = updateAll serviceType samples g.
Proof. unfold selectServiceInstance. repeat case_match; simpl; tauto. Qed.

(** What a request leaves of the gateway's other fields. *)
Lemma routeToService_fields (cfg : Config) (serviceType : string) (req : Request)
    (w : World) (g : Gateway) (out : Outcome) :
  routeToService cfg serviceType req w g = Some out ->
  healthStatus (gateway_after out) = healthStatus g
  /\ (exists g1, serviceLoads g1 = serviceLoads g
        /\ (serviceLoads (gateway_after out) = serviceLoads g1
            \/ serviceLoads (gateway_after out)
               = serviceLoads (updateAll serviceType (samples w) g1)))
  /\ (circuitBreakerStatus (gateway_after out) = circuitBreakerStatus g
      \/ circuitBreakerStatus (gateway_after out)
         = <["service" +:+ serviceType := 1]> (circuitBreakerStatus g)).
Proof.
  unfold routeToService.
  destruct (withBreaker _ _ g) as [[g1 allowed]|] eqn:Hw; [|done].
  apply withBreaker_fields in Hw as (Hl1 & Hh1 & Hg1). simpl.
  destruct allowed; simpl; cycle 1.
  { intros [= <-]. simpl. split; [done|]. split; [|by left].
    exists g1. split; [done|by left]. }
  destruct (getServiceIPs (redisConnected w) (lRange w)) as [|i0 rest] eqn:Hips.
  { intros [= <-]. simpl. split; [done|]. split; [|by left].
    exists g1. split; [done|by left]. }
  rewrite <- Hips.
  pose proof (selectServiceInstance_state serviceType
                (getServiceIPs (redisConnected w) (lRange w)) (samples w) g1) as Hst.
  destruct (selectServiceInstance serviceType
              (getServiceIPs (redisConnected w) (lRange w)) (samples w) g1)
    as [g2 selected]. cbn [fst] in Hst.
  assert (healthStatus g2 = healthStatus g
          /\ circuitBreakerStatus g2 = circuitBreakerStatus g
          /\ (serviceLoads g2 = serviceLoads g1
              \/ serviceLoads g2 = serviceLoads (updateAll serviceType (samples w) g1)))
    as (Hh2 & Hg2 & Hl2).
  { destruct Hst as [->| ->]; [by repeat split; try left|].
    destruct (updateAll_frame serviceType (samples w) g1) as (_ & -> & ->).
    repeat split; try done. by right. }
  assert (forall resp cs,
            Some {| gateway_after := g2; response := resp; calls := cs |} = Some out ->
            healthStatus (gateway_after out) = healthStatus g
            /\ (exists g1, serviceLoads g1 = serviceLoads g
                  /\ (serviceLoads (gateway_after out) = serviceLoads g1
                      \/ serviceLoads (gateway_after out)
                         = serviceLoads (updateAll serviceType (samples w) g1)))
            /\ (circuitBreakerStatus (gateway_after out) = circuitBreakerStatus g
                \/ circuitBreakerStatus (gateway_after out)
                   = <["service" +:+ serviceType := 1]> (circuitBreakerStatus g)))
    as Hdone.
  { intros resp cs [= <-]. simpl. split; [done|]. split; [|by left]. by exists g1. }
  destruct selected as [instance|]; [|by apply Hdone].
  case_bool_decide; [by apply Hdone|].
  destruct (axios cfg _) as [status data|err].
  - destruct (recordSuccessOf _ g2) as [g3|] eqn:Hs; [|done].
    apply recordSuccessOf_fields in Hs as (Hl3 & Hh3 & Hg3).
    intros [= <-]. simpl. split; [congruence|]. split; [|left; congruence].
    exists g1. split; [done|]. rewrite Hl3. done.
  - destruct (recordFailureOf cfg _ _ g2) as [g3|] eqn:Hf; [|done].
    apply recordFailureOf_fields in Hf as (Hl3 & Hh3 & Hg3).
    intros [= <-]. simpl. split; [congruence|]. split.
    + exists g1. split; [done|]. rewrite Hl3. done.
    + rewrite <- Hg2. done.
Qed.

Lemma routeToService_None (cfg : Config) (serviceType : string) (req : Request)
    (w : World) (g : Gateway) :
  circuitBreakers g !! ("service" +:+ serviceType) = None ->
  routeToService cfg serviceType req w g = None.
Proof. intros Hb. unfold routeToService, withBreaker. by rewrite Hb. Qed.

(** The record of the service after a request is the record before it with
    the gate and then at most a success or a failure applied; the records
    of the other services stay. *)
Lemma serve_breakers (cfg : Config) (g : Gateway) (r : Incoming) :
  circuitBreakers (serve cfg g r) = circuitBreakers g
  \/ exists b ops,
       circuitBreakers g !! ("service" +:+ in_serviceType r) = Some b
       /\ forallb request_op ops = true
       /\ circuitBreakers (serve cfg g r)
          = <["service" +:+ in_serviceType r := run_ops cfg ops b]> (circuitBreakers g).
Proof.
  unfold serve.
  destruct (circuitBreakers g !! ("service" +:+ in_serviceType r)) as [b|] eqn:Hb; cycle 1.
  { rewrite routeToService_None by done. by left. }
  destruct (routeToService_routes cfg (in_serviceType r) (in_request r) (in_world r) g b Hb)
    as (out & -> & HR).
  destruct HR as [_ ->|_ _ _ Hcbs _|? ? ? _ _ ? _ _ _ Hcbs|? ? _ _ ? _ _ _ Hcbs].
  - left. reflexivity.
  - right. exists b, [OpGate (gate_now (in_world r))]. by repeat split.
  - right. exists b, [OpGate (gate_now (in_world r)); OpSuccess]. by repeat split.
  - right. exists b, [OpGate (gate_now (in_world r)); OpFailure (outcome_now (in_world r))].
    by repeat split.
Qed.

Lemma apply_op_settled (cfg : Config) (op : BreakerOp) (b : Breaker) :
  0 <= ERROR_TIMEOUT cfg ->
  0 < ERROR_THRESHOLD cfg ->
  request_op op = true ->
  breaker_settled cfg b -> breaker_settled cfg (apply_op cfg op b).
Proof.
  intros Htimeout Hthreshold Hop (Hclosed & Hlast & Hfail & Hre & Hcons).
  unfold breaker_settled.
  destruct op as [now| |now|now]; simpl in *; try done.
  - unfold checkCircuitBreaker.
    destruct (state b) eqn:Hs; simpl; [by rewrite Hs| |by rewrite Hs].
    case_match; simpl; [|by rewrite Hs].
    split; [|split; [|done]].
    + split; [done|]. intros Hlt. apply Hclosed in Hlt. congruence.
    + intros _. by apply Hlast.
  - unfold recordSuccess.
    destruct (state b) eqn:Hs; simpl; [by rewrite Hs|by rewrite Hs|].
    split; [|split; [|done]].
    + split; [lia|done].
    + done.
  - destruct (Z_lt_ge_dec (failures b + 1) (ERROR_THRESHOLD cfg)) as [Hlt|Hge].
    + rewrite recordFailure_below_threshold by done. simpl.
      assert (state b = CLOSED) as Hs by (apply Hclosed; lia).
      repeat split; try done; try lia; try (intros _; by eexists).
    + rewrite recordFailure_at_threshold by done. simpl.
      repeat split; try done; try lia; try (intros _; by eexists).
Qed.

Lemma run_ops_settled (cfg : Config) (ops : list BreakerOp) (b : Breaker) :
  0 <= ERROR_TIMEOUT cfg ->
  0 < ERROR_THRESHOLD cfg ->
  forallb request_op ops = true ->
  breaker_settled cfg b -> breaker_settled cfg (run_ops cfg ops b).
Proof.
  intros Htimeout Hthreshold. unfold run_ops. revert b.
  induction ops as [|op rest IH]; intros b Hops Hb; simpl in *; [done|].
  apply andb_true_iff in Hops as [Hop Hrest].
  apply IH; [done|]. by apply apply_op_settled.
Qed.


(** ** The health monitor *)

Lemma checkServiceHealth_200 (cfg : Config) (ping : string -> Backend)
    (serviceType instance : string) :
  checkServiceHealth cfg ping serviceType instance = true
  <-> exists data, ping ("http://" +:+ instance +:+ "/ping") = Responded 200 data.
Proof.
  unfold checkServiceHealth.
  destruct (ping _) as [status data| |code message]; simpl.
  - destruct (validateStatus status) eqn:Hv; simpl.
    + rewrite Z.eqb_eq. split; [intros ->; by eexists|by intros [d [= -> _]]].
    + split; [done|]. intros [d [= -> _]]. done.
  - split; [done|by intros [d Hd]].
  - split; [done|by intros [d Hd]].
Qed.

Lemma append_inj (prefix s1 s2 : string) :
  prefix +:+ s1 = prefix +:+ s2 -> s1 = s2.
Proof. induction prefix as [|c prefix IH]; simpl; [done|]. intros [= H]. by apply IH. Qed.

(** The instances of one service type, probed one after the other. *)
Lemma probe_instances (cfg : Config) (ping : string -> Backend) (serviceType : string)
    (instances : list string) (m : Monitor) :
  let m' :=
    fold_left
      (fun acc instance => fst (updateServiceHealth cfg ping serviceType instance acc))
      instances m in
  circuitBreakers (gateway m') = circuitBreakers (gateway m)
  /\ serviceLoads (gateway m') = serviceLoads (gateway m)
  /\ circuitBreakerStatus (gateway m') = circuitBreakerStatus (gateway m)
  /\ (forall instance, instance ∈ instances ->
        healthStatus (gateway m') !! (serviceType +:+ "-" +:+ instance)
        = Some (checkServiceHealth cfg ping serviceType instance))
  /\ (forall key, (forall instance, instance ∈ instances ->
                                    key <> serviceType +:+ "-" +:+ instance) ->
        healthStatus (gateway m') !! key = healthStatus (gateway m) !! key
        /\ serviceHealthGauge m' !! key = serviceHealthGauge m !! key)
  /\ (gauge_agrees m -> gauge_agrees m').
Proof.
  revert m. induction instances as [|i rest IH]; intros m; cbn [fold_left].
  { repeat split; try done. intros instance Hin. by apply elem_of_nil in Hin. }
  set (m1 := (updateServiceHealth cfg ping serviceType i m).1).
  destruct (IH m1) as (Hcb & Hsl & Hg & Hin & Hout & Hagree).
  split; [by rewrite Hcb|]. split; [by rewrite Hsl|]. split; [by rewrite Hg|].
  split; [|split].
  - intros instance Hmem.
    destruct (decide (instance ∈ rest)) as [Hrest|Hrest]; [by apply Hin|].
    apply elem_of_cons in Hmem as [->|Hmem]; [|done].
    destruct (Hout (serviceType +:+ "-" +:+ i)) as [-> _].
    + intros j Hj Heq. apply append_inj in Heq. simpl in Heq.
      simplify_eq. done.
    + unfold m1. simpl. by rewrite lookup_insert_eq.
  - intros key Hkey.
    destruct (Hout key) as [-> ->].
    + intros j Hj. apply Hkey. by right.
    + unfold m1. simpl.
      assert (serviceType +:+ "-" +:+ i <> key) as Hne.
      { intros <-. by apply (Hkey i); [left|]. }
      by rewrite !lookup_insert_ne.
  - intros Hm. apply Hagree. unfold gauge_agrees, m1. simpl. intros key.
    destruct (decide (serviceType +:+ "-" +:+ i = key)) as [<-|Hne].
    + by rewrite !lookup_insert_eq.
    + rewrite !lookup_insert_ne by done. apply Hm.
Qed.

Lemma health_key_types (instanceA instanceB : string) :
  "A" +:+ "-" +:+ instanceA <> "B" +:+ "-" +:+ instanceB.
Proof. simpl. discriminate. Qed.

(** X10. After a run of the health monitor, an instance that the registry
    lists for service type A or B counts as healthy exactly when its reply
    to [GET /ping] had status 200 (another 2xx status does not do); the
    flags of keys that were not probed are as before, so that an instance
    that left the registry keeps its last flag; and the run touches neither
    the breakers, nor the loads, nor the breaker gauge. *)
Theorem health_cycle_view (cfg : Config) (ping : string -> Backend) (registry : Redis)
    (m : Monitor) :
  let m' := healthCycle cfg ping (getAllServices registry) m in
  (forall serviceType instance,
     serviceType = "A" \/ serviceType = "B" ->
     instance ∈ listInstances serviceType registry ->
     (isHealthy (gateway m') serviceType instance = true
      <-> exists data, ping ("http://" +:+ instance +:+ "/ping") = Responded 200 data))
  /\ (forall key,
        (forall serviceType instance,
           serviceType = "A" \/ serviceType = "B" ->
           instance ∈ listInstances serviceType registry ->
           key <> serviceType +:+ "-" +:+ instance) ->
        healthStatus (gateway m') !! key = healthStatus (gateway m) !! key)
  /\ circuitBreakers (gateway m') = circuitBreakers (gateway m)
  /\ serviceLoads (gateway m') = serviceLoads (gateway m)
  /\ circuitBreakerStatus (gateway m') = circuitBreakerStatus (gateway m).
Proof.
  unfold healthCycle, getAllServices. cbn [fold_left fst snd].
  set (mA := fold_left _ (listInstances "A" registry) m).
  destruct (probe_instances cfg ping "A" (listInstances "A" registry) m)
    as (HcbA & HslA & HgA & HinA & HoutA & _). fold mA in HcbA, HslA, HgA, HinA, HoutA.
  destruct (probe_instances cfg ping "B" (listInstances "B" registry) mA)
    as (HcbB & HslB & HgB & HinB & HoutB & _).
  cbn zeta in *.
  split; [|split; [|split; [|split]]]; try congruence.
  - intros serviceType instance [-> | ->] Hmem.
    + rewrite <- (checkServiceHealth_200 cfg ping "A" instance). unfold isHealthy.
      destruct (HoutB ("A" +:+ "-" +:+ instance)) as [-> _].
      { intros j _. apply health_key_types. }
      by rewrite (HinA _ Hmem).
    + rewrite <- (checkServiceHealth_200 cfg ping "B" instance). unfold isHealthy.
      by rewrite (HinB _ Hmem).
  - intros key Hkey.
    destruct (HoutB key) as [-> _]; [intros j Hj; apply Hkey; [by right|done]|].
    destruct (HoutA key) as [-> _]; [intros j Hj; apply Hkey; [by left|done]|].
    done.
Qed.

Lemma health_cycle_view_witness :
  isHealthy
    (gateway (healthCycle default_config
                (fun target =>
                   if bool_decide (target = "http://10.0.0.1/ping")
                   then Responded 200 JNull else Responded 204 JNull)
                (getAllServices (registry_with ["10.0.0.1"; "10.0.0.2"]))
                initial_monitor))
    "A" "10.0.0.1" = true.
Proof.
  apply (proj1 (health_cycle_view default_config
    (fun target =>
       if bool_decide (target = "http://10.0.0.1/ping")
       then Responded 200 JNull else Responded 204 JNull)
    (registry_with ["10.0.0.1"; "10.0.0.2"]) initial_monitor) "A" "10.0.0.1").
  - by left.
  - vm_compute. by left.
  - exists JNull. reflexivity.
Defined.

(** ** The gateway at work *)

Lemma healthCycle_frame (cfg : Config) (ping : string -> Backend) (registry : Redis)
    (m : Monitor) :
  let m' := healthCycle cfg ping (getAllServices registry) m in
  circuitBreakers (gateway m') = circuitBreakers (gateway m)
  /\ serviceLoads (gateway m') = serviceLoads (gateway m)
  /\ circuitBreakerStatus (gateway m') = circuitBreakerStatus (gateway m)
  /\ (gauge_agrees m -> gauge_agrees m').
Proof.
  unfold healthCycle, getAllServices. cbn [fold_left fst snd].
  set (mA := fold_left _ (listInstances "A" registry) m).
  destruct (probe_instances cfg ping "A" (listInstances "A" registry) m)
    as (HcbA & HslA & HgA & _ & _ & HagA). fold mA in HcbA, HslA, HgA, HagA.
  destruct (probe_instances cfg ping "B" (listInstances "B" registry) mA)
    as (HcbB & HslB & HgB & _ & _ & HagB).
  cbn zeta in *. repeat split; try congruence. intros Hm. by apply HagB, HagA.
Qed.

(** The breaker records after one activity. *)
Lemma live_breakers (cfg : Config) (m : Monitor) (a : Activity) :
  circuitBreakers (gateway (live cfg m a)) = circuitBreakers (gateway m)
  \/ exists service b ops,
       circuitBreakers (gateway m) !! service = Some b
       /\ forallb request_op ops = true
       /\ circuitBreakers (gateway (live cfg m a))
          = <[service := run_ops cfg ops b]> (circuitBreakers (gateway m)).
Proof.
  destruct a as [r|ping registry]; cbn [live gateway serviceHealthGauge].
  - destruct (serve_breakers cfg (gateway m) r) as [->|(b & ops & Hb & Hops & ->)];
      [by left|]. right. by exists ("service" +:+ in_serviceType r), b, ops.
  - left. apply healthCycle_frame.
Qed.

Lemma live_all_settled (cfg : Config) (activities : list Activity) (m : Monitor) :
  0 <= ERROR_TIMEOUT cfg ->
  0 < ERROR_THRESHOLD cfg ->
  map_Forall (fun _ b => breaker_settled cfg b) (circuitBreakers (gateway m)) ->
  map_Forall (fun _ b => breaker_settled cfg b)
    (circuitBreakers (gateway (live_all cfg activities m))).
Proof.
  intros Htimeout Hthreshold. unfold live_all. revert m.
  induction activities as [|a rest IH]; intros m Hall; simpl; [done|].
  apply IH.
  destruct (live_breakers cfg m a) as [->|(service & b & ops & Hb & Hops & ->)]; [done|].
  apply map_Forall_insert_2; [|done].
  apply run_ops_settled; try done. by apply (Hall _ _ Hb).
Qed.

Lemma initial_gateway_settled (cfg : Config) :
  0 < ERROR_THRESHOLD cfg ->
  map_Forall (fun _ b => breaker_settled cfg b) (circuitBreakers initial_gateway).
Proof.
  intros Hthreshold. simpl.
  assert (breaker_settled cfg initial_breaker) as Hinit.
  { unfold breaker_settled. simpl. repeat split; try done. }
  apply map_Forall_insert_2; [done|].
  apply map_Forall_insert_2; [done|]. apply map_Forall_empty.
Qed.

(** X5. Whatever requests the gateway has served and whatever health checks
    it has run since it started, with a timeout that is not negative and a
    positive threshold: the breaker of a service is CLOSED exactly when its
    failure count is below [ERROR_THRESHOLD]; an OPEN or HALF_OPEN breaker
    has a [lastFailure]; and [reroutes] and [consecutiveReroutes] are still
    0. *)
Theorem breakers_settled (cfg : Config) (activities : list Activity)
    (service : string) (b : Breaker) :
  0 <= ERROR_TIMEOUT cfg ->
  0 < ERROR_THRESHOLD cfg ->
  circuitBreakers (gateway (live_all cfg activities initial_monitor)) !! service
  = Some b ->
  (state b = CLOSED <-> failures b < ERROR_THRESHOLD cfg)
  /\ (state b <> CLOSED -> is_Some (lastFailure b))
  /\ 0 <= failures b
  /\ reroutes b = 0
  /\ consecutiveReroutes b = 0.
Proof.
  intros Htimeout Hthreshold Hb.
  apply (live_all_settled cfg activities initial_monitor Htimeout Hthreshold
           (initial_gateway_settled cfg Hthreshold) _ _ Hb).
Qed.

Lemma breakers_settled_witness :
  (state {| failures := 3; lastFailure := Some 3010; state := OPEN;
            reroutes := 0; lastReroute := None; consecutiveReroutes := 0 |} = CLOSED
   <-> 3 < ERROR_THRESHOLD default_config).
Proof.
  refine (proj1 (breakers_settled default_config three_failures "serviceA"
    {| failures := 3; lastFailure := Some 3010; state := OPEN;
       reroutes := 0; lastReroute := None; consecutiveReroutes := 0 |} _ _ _)).
  - simpl. lia.
  - simpl. lia.
  - vm_compute. reflexivity.
Defined.

(** X6. A breaker that requests have brought to HALF_OPEN is reopened by a
    single failure: its failure count was not reset when it left OPEN, so
    the failure of the probe is at the threshold again. *)
Theorem half_open_failure_reopens (cfg : Config) (activities : list Activity)
    (service : string) (b : Breaker) (now : Z) :
  0 <= ERROR_TIMEOUT cfg ->
  0 < ERROR_THRESHOLD cfg ->
  circuitBreakers (gateway (live_all cfg activities initial_monitor)) !! service
  = Some b ->
  state b = HALF_OPEN ->
  recordFailure cfg now b
  = ({| failures := failures b + 1;
        lastFailure := Some now;
        state := OPEN;
        reroutes := reroutes b;
        lastReroute := lastReroute b;
        consecutiveReroutes := consecutiveReroutes b |}, true).
Proof.
  intros Htimeout Hthreshold Hb Hhalf.
  destruct (live_all_settled cfg activities initial_monitor Htimeout Hthreshold
              (initial_gateway_settled cfg Hthreshold) _ _ Hb) as (Hclosed & _).
  apply recordFailure_at_threshold; [done|].
  destruct (Z_lt_ge_dec (failures b) (ERROR_THRESHOLD cfg)) as [Hlt|Hge]; [|lia].
  apply Hclosed in Hlt. congruence.
Qed.

Lemma half_open_failure_reopens_witness :
  recordFailure default_config 40000
    {| failures := 3; lastFailure := Some 3010; state := HALF_OPEN;
       reroutes := 0; lastReroute := None; consecutiveReroutes := 0 |}
  = ({| failures := 4; lastFailure := Some 40000; state := OPEN;
        reroutes := 0; lastReroute := None; consecutiveReroutes := 0 |}, true).
Proof.
  refine (half_open_failure_reopens default_config
    (three_failures ++ [Serve (incoming_no_registry 30000)]) "serviceA"
    {| failures := 3; lastFailure := Some 3010; state := HALF_OPEN;
       reroutes := 0; lastReroute := None; consecutiveReroutes := 0 |} 40000 _ _ _ _).
  - simpl. lia.
  - simpl. lia.
  - vm_compute. reflexivity.
  - reflexivity.
Defined.

Lemma live_keeps_records (cfg : Config) (m : Monitor) (a : Activity) (service : string) :
  is_Some (circuitBreakers (gateway (live cfg m a)) !! service)
  <-> is_Some (circuitBreakers (gateway m) !! service).
Proof.
  destruct (live_breakers cfg m a) as [->|(s & b & ops & Hb & _ & ->)]; [done|].
  destruct (decide (service = s)) as [->|Hne].
  - rewrite lookup_insert_eq, Hb. split; intros _; by eexists.
  - by rewrite lookup_insert_ne.
Qed.

Lemma live_all_keeps_records (cfg : Config) (activities : list Activity) (m : Monitor)
    (service : string) :
  is_Some (circuitBreakers (gateway (live_all cfg activities m)) !! service)
  <-> is_Some (circuitBreakers (gateway m) !! service).
Proof.
  unfold live_all. revert m.
  induction activities as [|a rest IH]; intros m; simpl; [done|].
  rewrite IH. apply live_keeps_records.
Qed.

Lemma initial_records (service : string) :
  is_Some (circuitBreakers initial_gateway !! service)
  <-> service = "serviceA" \/ service = "serviceB".
Proof.
  simpl. rewrite !lookup_insert_is_Some, lookup_empty.
  split.
  - intros [->|[_ [->|[_ H]]]]; [by left|by right|by destruct H].
  - intros [->| ->]; [by left|]. right. split; [done|by left].
Qed.

Lemma service_name_inj (s1 s2 : string) :
  "service" +:+ s1 = "service" +:+ s2 -> s1 = s2.
Proof. simpl. intros H. by simplify_eq. Qed.

(** X7. The gateway never loses a breaker record and never gains one:
    after whatever requests and health checks, a request for service type A
    or B is answered, and for any other service type the call throws at the
    gate. *)
Theorem router_answers_known_types (cfg : Config) (activities : list Activity)
    (serviceType : string) (req : Request) (w : World) :
  is_Some (routeToService cfg serviceType req w
             (gateway (live_all cfg activities initial_monitor)))
  <-> serviceType = "A" \/ serviceType = "B".
Proof.
  set (g := gateway (live_all cfg activities initial_monitor)).
  assert (is_Some (circuitBreakers g !! ("service" +:+ serviceType))
          <-> serviceType = "A" \/ serviceType = "B") as Hrec.
  { unfold g. rewrite live_all_keeps_records. simpl gateway.
    rewrite initial_records. split.
    - intros [H|H]; [left|right];
        by apply (service_name_inj serviceType _).
    - intros [->| ->]; [by left|by right]. }
  rewrite <- Hrec. split.
  - intros [out Hout].
    destruct (circuitBreakers g !! ("service" +:+ serviceType)) eqn:Hb; [by eexists|].
    by rewrite routeToService_None in Hout.
  - intros [b Hb].
    destruct (routeToService_routes cfg serviceType req w g b Hb) as (out & -> & _).
    by eexists.
Qed.

Lemma serve_no_load_map (cfg : Config) (g : Gateway) (r : Incoming) :
  (forall service, is_Some (circuitBreakers g !! service) ->
                   service = "serviceA" \/ service = "serviceB") ->
  serviceLoads g = serviceLoads initial_gateway ->
  serviceLoads (serve cfg g r) = serviceLoads g.
Proof.
  intros Hkeys Hloads. unfold serve.
  destruct (routeToService cfg _ _ _ g) as [out|] eqn:Hroute; [|done].
  destruct (routeToService_fields cfg _ _ _ g out Hroute)
    as (_ & (g1 & Hl1 & [->| ->]) & _); [done|].
  destruct (circuitBreakers g !! ("service" +:+ in_serviceType r)) as [b|] eqn:Hb; cycle 1.
  { by rewrite routeToService_None in Hroute. }
  assert (serviceLoads g1 !! in_serviceType r = None) as Hnone.
  { rewrite Hl1, Hloads.
    destruct (Hkeys ("service" +:+ in_serviceType r)) as [H|H]; [by eexists|..];
      apply (service_name_inj (in_serviceType r) _) in H; rewrite H; by vm_compute. }
  by rewrite (updateAll_no_map _ _ _ Hnone).
Qed.

Lemma live_all_loads (cfg : Config) (activities : list Activity) (m : Monitor) :
  (forall service, is_Some (circuitBreakers (gateway m) !! service) ->
                   service = "serviceA" \/ service = "serviceB") ->
  serviceLoads (gateway m) = serviceLoads initial_gateway ->
  serviceLoads (gateway (live_all cfg activities m)) = serviceLoads initial_gateway.
Proof.
  unfold live_all. revert m.
  induction activities as [|a rest IH]; intros m Hkeys Hloads; [done|].
  simpl. apply IH.
  - intros service Hs. apply Hkeys. by apply (live_keeps_records cfg m a).
  - destruct a as [r|ping registry]; cbn [live gateway serviceHealthGauge].
    + by rewrite serve_no_load_map.
    + destruct (healthCycle_frame cfg ping registry m) as (_ & -> & _). done.
Qed.

(** X8. Nothing the gateway does ever stores a load: after whatever
    requests and health checks, [serviceLoads] is as it was at the start,
    with an empty map for each service. The service types that pass the
    gate are A and B, and [serviceLoads] has no map under these keys. *)
Theorem load_view_never_populated (cfg : Config) (activities : list Activity) :
  serviceLoads (gateway (live_all cfg activities initial_monitor))
  = serviceLoads initial_gateway.
Proof.
  apply live_all_loads; [|done]. intros service. apply initial_records.
Qed.

Lemma live_gauge (cfg : Config) (m : Monitor) (a : Activity) :
  map_Forall (fun _ v => v = 1) (circuitBreakerStatus (gateway m)) ->
  map_Forall (fun _ v => v = 1) (circuitBreakerStatus (gateway (live cfg m a))).
Proof.
  intros Hall. destruct a as [r|ping registry]; cbn [live gateway serviceHealthGauge].
  - unfold serve.
    destruct (routeToService cfg _ _ _ (gateway m)) as [out|] eqn:Hroute; [|done].
    destruct (routeToService_fields cfg _ _ _ _ out Hroute) as (_ & _ & [->| ->]);
      [done|]. by apply map_Forall_insert_2.
  - destruct (healthCycle_frame cfg ping registry m) as (_ & _ & -> & _). done.
Qed.

(** X9. The gauge [circuit_breaker_status] is written only when a failure
    opens a breaker: after whatever requests and health checks, each
    service either has no value in it or the value 1 (OPEN); the moves to
    HALF_OPEN (2) and back to CLOSED (0) are never published. *)
Theorem gauge_only_reports_open (cfg : Config) (activities : list Activity)
    (service : string) (value : Z) :
  circuitBreakerStatus (gateway (live_all cfg activities initial_monitor)) !! service
  = Some value ->
  value = 1.
Proof.
  assert (forall m, map_Forall (fun _ v => v = 1) (circuitBreakerStatus (gateway m)) ->
                    map_Forall (fun _ v => v = 1)
                      (circuitBreakerStatus (gateway (live_all cfg activities m))))
    as Hall.
  { unfold live_all. induction activities as [|a rest IH]; intros m Hm; [done|].
    simpl. apply IH. by apply live_gauge. }
  intros Hvalue. apply (Hall initial_monitor (map_Forall_empty _) _ _ Hvalue).
Qed.

Lemma gauge_only_reports_open_witness :
  circuitBreakerStatus
    (gateway (live_all default_config
                (three_failures ++ [Serve (incoming 30000 (Responded 200 JNull))])
                initial_monitor))
    !! "serviceA" = Some 1
  /\ state <$> circuitBreakers
       (gateway (live_all default_config
                   (three_failures ++ [Serve (incoming 30000 (Responded 200 JNull))])
                   initial_monitor))
       !! "serviceA" = Some CLOSED
  /\ 1 = 1.
Proof.
  assert (circuitBreakerStatus
            (gateway (live_all default_config
                        (three_failures ++ [Serve (incoming 30000 (Responded 200 JNull))])
                        initial_monitor))
            !! "serviceA" = Some 1) as Hone by (vm_compute; reflexivity).
  split; [exact Hone|]. split; [vm_compute; reflexivity|].
  exact (gauge_only_reports_open default_config
    (three_failures ++ [Serve (incoming 30000 (Responded 200 JNull))]) "serviceA" 1 Hone).
Defined.

Lemma live_gauge_agrees (cfg : Config) (m : Monitor) (a : Activity) :
  gauge_agrees m -> gauge_agrees (live cfg m a).
Proof.
  intros Hm. destruct a as [r|ping registry]; cbn [live gateway serviceHealthGauge].
  - unfold gauge_agrees. cbn [gateway serviceHealthGauge]. intros key. rewrite Hm. f_equal.
    unfold serve.
    destruct (routeToService cfg _ _ _ (gateway m)) as [out|] eqn:Hroute; [|done].
    by destruct (routeToService_fields cfg _ _ _ _ out Hroute) as (-> & _).
  - by apply healthCycle_frame.
Qed.

(** X11. The gauge [service_health_status] always shows the health view:
    after whatever requests and health checks, a key has the value 1 in the
    gauge when its flag is true, 0 when it is false, and no value when the
    view has no flag for it. *)
Theorem health_gauge_agrees (cfg : Config) (activities : list Activity) (key : string) :
  serviceHealthGauge (live_all cfg activities initial_monitor) !! key
  = (fun healthy : bool => if healthy then 1 else 0)
      <$> healthStatus (gateway (live_all cfg activities initial_monitor)) !! key.
Proof.
  assert (forall m, gauge_agrees m -> gauge_agrees (live_all cfg activities m)) as Hall.
  { unfold live_all. induction activities as [|a rest IH]; intros m Hm; [done|].
    simpl. apply IH. by apply live_gauge_agrees. }
  apply (Hall initial_monitor). intros k. simpl. by rewrite !lookup_empty.
Qed.

Lemma load_view_keys (cfg : Config) (activities : list Activity) :
  serviceLoads (gateway (live_all cfg activities initial_monitor))
  = serviceLoads initial_gateway.
Proof. apply live_all_loads; [|done]. intros service. apply initial_records. Qed.

(** X12. Whatever the gateway has done before, for service type A or B the
    selector answers with the first healthy instance of the list, or with
    the first instance when none is healthy, and the loads that are sampled
    play no part. *)
Theorem selection_ignores_samples (cfg : Config) (activities : list Activity)
    (serviceType : string) (instances : list string)
    (samples : list (string * MetricsReply)) :
  serviceType = "A" \/ serviceType = "B" ->
  let g := gateway (live_all cfg activities initial_monitor) in
  selectServiceInstance serviceType instances samples g
  = (g, match List.filter (isHealthy g serviceType) instances with
        | [] => head instances
        | healthy :: _ => Some healthy
        end).
Proof.
  intros Htype. cbn zeta.
  set (g := gateway (live_all cfg activities initial_monitor)).
  assert (serviceLoads g !! serviceType = None) as Hnone.
  { unfold g. rewrite load_view_keys. by destruct Htype as [->| ->]. }
  destruct (List.filter (isHealthy g serviceType) instances) as [|h hs] eqn:Hf.
  - unfold selectServiceInstance. rewrite Hf. by destruct instances.
  - rewrite selectServiceInstance_no_map by (by rewrite ?Hf). by rewrite Hf.
Qed.

Lemma selection_ignores_samples_witness :
  (selectServiceInstance "A" ["10.0.0.1"; "10.0.0.2"]
     [("10.0.0.1", rps 90); ("10.0.0.2", rps 1)]
     (gateway (live_all default_config three_failures initial_monitor))).2
  = Some "10.0.0.1".
Proof.
  rewrite (selection_ignores_samples default_config three_failures "A"
             ["10.0.0.1"; "10.0.0.2"] [("10.0.0.1", rps 90); ("10.0.0.2", rps 1)]).
  - vm_compute. reflexivity.
  - by left.
Defined.

(** ** The registry *)

Lemma registry_key_inj (t1 t2 : string) :
  "service:" +:+ t1 = "service:" +:+ t2 -> t1 = t2.
Proof. simpl. intros H. by simplify_eq. Qed.

(** X13. A registration with a host and a service type, while the registry
    answers, is confirmed with 200 and puts the host in front of the list
    of that service type: the next listing gives the host followed by what
    was listed before, also when the host was in the list already; the
    lists of the other service types are not touched. *)
Theorem register_then_list (fields : Registration) (r : Redis) (h t : string) :
  host fields = Some h ->
  serviceType fields = Some t ->
  h <> "" ->
  t <> "" ->
  reachable r = true ->
  connectedFlag r = true ->
  let '(r', answer) := registerHandler fields r in
  answer = {| status_code := 200; payload := JObj [("status", JStr "registered")] |}
  /\ listInstances t r' = h :: listInstances t r
  /\ forall other, other <> t -> listInstances other r' = listInstances other r.
Proof.
  intros Hh Ht Hhne Htne Hup Hflag.
  unfold registerHandler, missing, lPush. rewrite Hh, Ht, Hup. simpl.
  rewrite !bool_decide_eq_false_2 by done. simpl.
  unfold listInstances, lRangeAll, getServiceIPs. simpl. rewrite Hup, Hflag. simpl.
  split; [done|]. split.
  - by rewrite lookup_insert_eq.
  - intros other Hne. rewrite lookup_insert_ne; [done|].
    intros Heq. by apply registry_key_inj in Heq.
Qed.

Lemma register_then_list_witness :
  listInstances "A"
    (registerHandler {| host := Some "10.0.0.9"; serviceType := Some "A" |}
       (registry_with ["10.0.0.1"])).1
  = ["10.0.0.9"; "10.0.0.1"].
Proof.
  pose proof (register_then_list {| host := Some "10.0.0.9"; serviceType := Some "A" |}
                (registry_with ["10.0.0.1"]) "10.0.0.9" "A") as H.
  destruct (registerHandler _ _) as [r' answer].
  destruct H as (_ & H & _); try done.
Defined.

(** A registration changes the registry only when it is answered with
    200, and it is answered with 200 exactly when both fields are there and
    not empty and the registry takes the command; a missing or empty field
    gives 400 and a registry that fails gives 500, and then the registry
    is as before. The flag [redisConnected], which makes a listing empty, is
    not consulted. *)
Lemma register_outcomes (fields : Registration) (r : Redis) :
  let complete := negb (missing (host fields) || missing (serviceType fields)) in
  status_code (registerHandler fields r).2
  = (if complete then if reachable r then 200 else 500 else 400)
  /\ (status_code (registerHandler fields r).2 <> 200 ->
      (registerHandler fields r).1 = r).
Proof.
  unfold registerHandler, lPush.
  destruct (missing (host fields) || missing (serviceType fields)); simpl; [done|].
  by destruct (reachable r).
Qed.

(** ** Where a request is forwarded *)

Lemma routeToService_forward (cfg : Config) (serviceType : string) (req : Request)
    (w : World) (g : Gateway) (b : Breaker) (instance : string) :
  circuitBreakers g !! ("service" +:+ serviceType) = Some b ->
  (checkCircuitBreaker cfg (gate_now w) b).2 = true ->
  getServiceIPs (redisConnected w) (lRange w) <> [] ->
  (selectServiceInstance serviceType (getServiceIPs (redisConnected w) (lRange w))
     (samples w)
     (set_circuitBreakers
        (<["service" +:+ serviceType := (checkCircuitBreaker cfg (gate_now w) b).1]>
           (circuitBreakers g)) g)).2 = Some instance ->
  instance <> "" ->
  exists out, routeToService cfg serviceType req w g = Some out
    /\ head (calls out)
       = Some (Forward ("http://" +:+ instance +:+ ":" +:+ SERV_REST_PORT cfg
                          +:+ url req)).
Proof.
  intros Hb Hpass Hips Hsel Hname. unfold routeToService.
  rewrite (withBreaker_lookup _ _ _ _ Hb). simpl. rewrite Hpass. simpl.
  destruct (getServiceIPs (redisConnected w) (lRange w)) as [|i0 rest] eqn:Heq; [done|].
  set (g1 := set_circuitBreakers _ g) in *.
  pose proof (selectServiceInstance_frame serviceType (i0 :: rest) (samples w) g1) as Hframe.
  destruct (selectServiceInstance serviceType (i0 :: rest) (samples w) g1)
    as [g2 selected]. cbn [fst snd] in Hsel, Hframe. subst selected.
  rewrite bool_decide_eq_false_2 by done.
  assert (circuitBreakers g2 !! ("service" +:+ serviceType)
          = Some (checkCircuitBreaker cfg (gate_now w) b).1) as Hb2.
  { rewrite Hframe. unfold g1. simpl. apply lookup_insert_eq. }
  destruct (axios cfg _) as [status data|err].
  - destruct (recordSuccessOf_lookup _ g2 _ Hb2) as (g3 & -> & _). simpl. by eexists.
  - destruct (recordFailureOf_lookup cfg _ (outcome_now w) g2 _ Hb2) as (g3 & -> & _).
    simpl. by eexists.
Qed.

(** X14. Whatever the gateway has done before, a request for service type
    A or B that passes the gate is forwarded to the first healthy instance
    of the registry's list, and to the first instance of the list when none
    is healthy, as before the first health check, when the health view is
    still empty. *)
Theorem forward_target (cfg : Config) (activities : list Activity)
    (serviceType : string) (req : Request) (w : World) (b : Breaker) (pick : string) :
  serviceType = "A" \/ serviceType = "B" ->
  let g := gateway (live_all cfg activities initial_monitor) in
  let instances := getServiceIPs (redisConnected w) (lRange w) in
  circuitBreakers g !! ("service" +:+ serviceType) = Some b ->
  (checkCircuitBreaker cfg (gate_now w) b).2 = true ->
  match List.filter (isHealthy g serviceType) instances with
  | [] => head instances
  | healthy :: _ => Some healthy
  end = Some pick ->
  pick <> "" ->
  exists out, routeToService cfg serviceType req w g = Some out
    /\ head (calls out)
       = Some (Forward ("http://" +:+ pick +:+ ":" +:+ SERV_REST_PORT cfg +:+ url req)).
Proof.
  intros Htype g instances Hb Hpass Hpick Hname.
  apply (routeToService_forward cfg serviceType req w g b pick Hb Hpass); [| |done].
  { fold instances. destruct instances; [|done].
    simpl in Hpick. discriminate. }
  fold instances.
  set (g1 := set_circuitBreakers _ g).
  assert (serviceLoads g1 !! serviceType = None) as Hnone.
  { unfold g1, g. simpl. rewrite load_view_keys. by destruct Htype as [->| ->]. }
  assert (List.filter (isHealthy g1 serviceType) instances
          = List.filter (isHealthy g serviceType) instances) as Hsame by done.
  destruct (List.filter (isHealthy g serviceType) instances) as [|h hs] eqn:Hf.
  - unfold selectServiceInstance. rewrite Hsame. simpl.
    destruct instances; [done|]. done.
  - rewrite selectServiceInstance_no_map by (by rewrite ?Hsame). by rewrite Hsame.
Qed.

Lemma forward_target_witness :
  exists out,
    routeToService default_config "A" get_me
      (world_replying 1000 (Responded 200 JNull))
      (gateway (live_all default_config [] initial_monitor)) = Some out
    /\ head (calls out) = Some (Forward "http://10.0.0.1:5000/sA/api/users/auth/me").
Proof.
  apply (forward_target default_config [] "A" get_me
           (world_replying 1000 (Responded 200 JNull)) initial_breaker "10.0.0.1").
  - by left.
  - vm_compute. reflexivity.
  - reflexivity.
  - vm_compute. reflexivity.
  - done.
Defined.

(** X15. A forwarded request that the backend does not answer counts as a
    failure on the breaker. When the client's timeout expires the answer is
    504 with the detail "Request timed out"; for any other error without a
    reply (connection refused, reset, name not found) it is 500 with the
    error's message as detail. *)
Theorem forward_without_reply (cfg : Config) (serviceType : string) (req : Request)
    (w : World) (g : Gateway) (b : Breaker) (out : Outcome) (target : string) :
  circuitBreakers g !! ("service" +:+ serviceType) = Some b ->
  routeToService cfg serviceType req w g = Some out ->
  head (calls out) = Some (Forward target) ->
  (backend w target = TimedOut ->
   response out = json_detail 504 (JStr "Request timed out")
   /\ calls out = [Forward target; RecordFailure ("service" +:+ serviceType)])
  /\ (forall code message,
        backend w target = Unreachable code message ->
        code <> "ECONNABORTED" ->
        response out = json_detail 500 (JStr message)
        /\ calls out = [Forward target; RecordFailure ("service" +:+ serviceType)]).
Proof.
  intros Hb Hroute Hcall.
  destruct (routeToService_routes cfg serviceType req w g b Hb) as (out' & Hout & HR).
  assert (out' = out) as -> by congruence.
  destruct HR as [_ ->|_ Hc|instance s d _ _ tgt Hax Hc Hresp Hcbs
                 |instance err _ _ tgt Hax Hc Hresp Hcbs];
    try (rewrite Hc in Hcall); try done; simpl in Hcall; injection Hcall as <-.
  - split; [intros Hreply|intros code message Hreply _];
      rewrite Hreply in Hax; done.
  - split; [intros Hreply|intros code message Hreply Hcode];
      rewrite Hreply in Hax; simpl in Hax; injection Hax as <-;
      rewrite Hresp; (split; [|done]); unfold error_response; simpl.
    + done.
    + by rewrite bool_decide_eq_false_2.
Qed.

Lemma forward_without_reply_witness :
  response
    (outcome_of (routeToService default_config "A" get_me
                   (world_replying 1000 TimedOut) one_instance))
  = json_detail 504 (JStr "Request timed out").
Proof.
  refine (proj1 (proj1 (forward_without_reply default_config "A" get_me
    (world_replying 1000 TimedOut) one_instance initial_breaker
    (outcome_of (routeToService default_config "A" get_me
                   (world_replying 1000 TimedOut) one_instance))
    "http://10.0.0.1:5000/sA/api/users/auth/me" _ _ _) _)).
  - vm_compute. reflexivity.
  - vm_compute. reflexivity.
  - vm_compute. reflexivity.
  - reflexivity.
Defined.

(** ** The load map and the sort *)

Lemma map_get_set_eq (k : string) (v : option LoadData) (m : LoadMap) :
  map_get k (map_set k v m) = Some v.
Proof.
  unfold map_get. induction m as [|[k' v'] rest IH]; simpl.
  - by rewrite bool_decide_eq_true_2.
  - case_bool_decide as Hk; simpl.
    + by rewrite bool_decide_eq_true_2.
    + by rewrite bool_decide_eq_false_2.
Qed.

Lemma map_get_set_ne (k other : string) (v : option LoadData) (m : LoadMap) :
  other <> k -> map_get other (map_set k v m) = map_get other m.
Proof.
  intros Hne. unfold map_get. induction m as [|[k' v'] rest IH]; simpl.
  - by rewrite bool_decide_eq_false_2.
  - case_bool_decide as Hk; simpl.
    + subst k'. by rewrite bool_decide_eq_false_2.
    + case_bool_decide; [done|]. apply IH.
Qed.

Lemma map_set_keys (k : string) (v : option LoadData) (m : LoadMap) :
  List.map fst (map_set k v m)
  = if bool_decide (k ∈ List.map fst m) then List.map fst m
    else (List.map fst m ++ [k])%list.
Proof.
  induction m as [|[k' v'] rest IH]; [done|].
  cbn [map_set List.map fst].
  destruct (decide (k' = k)) as [->|Hne].
  - rewrite !bool_decide_eq_true_2; [done|by left|done].
  - rewrite (bool_decide_eq_false_2 (k' = k)) by done.
    cbn [List.map fst]. rewrite IH.
    destruct (decide (k ∈ List.map fst rest)) as [Hin|Hin].
    + rewrite !bool_decide_eq_true_2; [done|by right|done].
    + rewrite !bool_decide_eq_false_2; [done| |done].
      intros Hcons. apply elem_of_cons in Hcons as [->|Hcons]; done.
Qed.

(** X16. Where [serviceLoads] has a map for the key, a sample that
    succeeds replaces the load stored for the instance, which keeps its
    place in the map, or is added at the end when the instance is new; the
    loads of the other instances and the maps of the other keys stay. A
    sample that fails changes nothing: the load stored before remains the
    one the sort will read. *)
Theorem updateServiceLoad_stores (serviceType instance : string) (reply : MetricsReply)
    (g : Gateway) (m : LoadMap) :
  serviceLoads g !! serviceType = Some m ->
  let g' := (updateServiceLoad serviceType instance reply g).1 in
  match reply with
  | MetricsOk load =>
      exists m', serviceLoads g' !! serviceType = Some m'
        /\ map_get instance m' = Some load
        /\ (forall other, other <> instance -> map_get other m' = map_get other m)
        /\ List.map fst m'
           = (if bool_decide (instance ∈ List.map fst m) then List.map fst m
              else (List.map fst m ++ [instance])%list)
        /\ (forall key, key <> serviceType ->
              serviceLoads g' !! key = serviceLoads g !! key)
  | MetricsFailed => g' = g
  end.
Proof.
  intros Hm. unfold updateServiceLoad. destruct reply as [load|]; [|done].
  rewrite Hm. exists (map_set instance load m).
  destruct load as [data|]; simpl; rewrite lookup_insert_eq;
    (split; [done|]); (split; [apply map_get_set_eq|]);
    (split; [intros other Hne; by apply map_get_set_ne|]);
    (split; [apply map_set_keys|]);
    intros key Hne; by rewrite lookup_insert_ne.
Qed.

Lemma updateServiceLoad_stores_witness :
  (updateServiceLoad "serviceA" "10.0.0.1" MetricsFailed initial_gateway).1
  = initial_gateway.
Proof.
  exact (updateServiceLoad_stores "serviceA" "10.0.0.1" MetricsFailed initial_gateway []
           eq_refl).
Defined.

Lemma compare_load_refl (e : string * option LoadData) : compare_load e e <> Gt.
Proof.
  unfold compare_load. destruct (effective_load e.2); [|done].
  by rewrite Z.compare_refl.
Qed.

(** The first element of the sorted array is the first entry of least
    load. *)
Lemma sort_by_load_head_first (l : LoadMap) (e : string * option LoadData)
    (rest : LoadMap) :
  sort_by_load l = e :: rest ->
  exists l1 l2,
    l = (l1 ++ e :: l2)%list
    /\ (forall x, x ∈ l1 -> compare_load e x = Lt)
    /\ (forall x, x ∈ l2 -> compare_load e x <> Gt).
Proof.
  unfold sort_by_load. revert e rest.
  induction l as [|y ys IH]; intros e rest Hsort; [done|].
  simpl in Hsort.
  destruct (foldr insert_by_load [] ys) as [|m ms] eqn:Hys.
  - assert (ys = []) as ->.
    { destruct ys as [|z zs]; [done|]. exfalso.
      assert (z ∈ foldr insert_by_load [] (z :: zs)) as Hz
        by (apply (sort_by_load_elem z (z :: zs)); by left).
      rewrite Hys in Hz. by apply elem_of_nil in Hz. }
    simpl in Hsort. injection Hsort as <- <-.
    exists [], []. repeat split; intros x Hx; by apply elem_of_nil in Hx.
  - destruct (IH m ms eq_refl) as (l1 & l2 & -> & Hbefore & Hafter).
    assert (forall x, x ∈ (l1 ++ m :: l2)%list -> compare_load m x <> Gt) as Hleast.
    { intros x Hx. apply elem_of_app in Hx as [Hx|Hx].
      - by rewrite (Hbefore x Hx).
      - apply elem_of_cons in Hx as [->|Hx]; [apply compare_load_refl|by apply Hafter]. }
    simpl in Hsort.
    destruct (compare_load y m) eqn:Hym; injection Hsort as <- <-.
    + exists [], (l1 ++ m :: l2)%list. split; [done|]. split.
      * intros x Hx. by apply elem_of_nil in Hx.
      * intros x Hx. apply (compare_load_trans y m x); [congruence|by apply Hleast].
    + exists [], (l1 ++ m :: l2)%list. split; [done|]. split.
      * intros x Hx. by apply elem_of_nil in Hx.
      * intros x Hx. apply (compare_load_trans y m x); [congruence|by apply Hleast].
    + exists (y :: l1), l2. split; [done|]. split; [|done].
      intros x Hx. apply elem_of_cons in Hx as [->|Hx]; [|by apply Hbefore].
      by apply compare_load_flip.
Qed.

(** X17. Where [serviceLoads] has a map for the key and some instance is
    healthy, the selector reads the loads stored in the map after sampling,
    for the healthy instances only, and answers with the one of least
    [requestsPerSecond], a load without that number counting as infinite;
    among equal loads it is the one that entered the map first, not the one
    that comes first in the registry's list. When the map has no entry for
    a healthy instance, the answer is the first healthy instance. *)
Theorem load_sort_selects_least (serviceType : string) (instances : list string)
    (samples : list (string * MetricsReply)) (g : Gateway) (m : LoadMap) :
  let healthy := List.filter (isHealthy g serviceType) instances in
  let entries := List.filter (fun entry => bool_decide (entry.1 ∈ healthy)) m in
  let selected := (selectServiceInstance serviceType instances samples g).2 in
  healthy <> [] ->
  serviceLoads (updateAll serviceType samples g) !! serviceType = Some m ->
  (entries = [] -> selected = head healthy)
  /\ (entries <> [] ->
      exists before least after,
        entries = (before ++ least :: after)%list
        /\ (forall x, x ∈ before -> compare_load least x = Lt)
        /\ (forall x, x ∈ after -> compare_load least x <> Gt)
        /\ (least.1 <> "" -> selected = Some least.1)).
Proof.
  intros healthy entries selected Hhealthy Hm.
  assert (selected = first_or (sort_by_load entries) healthy) as ->.
  { unfold selected, selectServiceInstance.
    destruct instances as [|i0 rest]; [done|].
    fold healthy. destruct healthy as [|h hs] eqn:Hh; [done|].
    cbv zeta. by rewrite Hm. }
  split.
  - intros ->. done.
  - intros Hne.
    destruct (sort_by_load entries) as [|least rest] eqn:Hsort.
    { exfalso. destruct entries as [|e0 es]; [done|].
      assert (e0 ∈ sort_by_load (e0 :: es)) as He
        by (apply sort_by_load_elem; by left).
      rewrite Hsort in He. by apply elem_of_nil in He. }
    destruct (sort_by_load_head_first entries least rest Hsort)
      as (before & after & Heq & Hb & Ha).
    exists before, least, after. repeat split; try done.
    intros Hname. unfold first_or. destruct least as [name v]. simpl in *.
    by rewrite bool_decide_eq_false_2.
Qed.

Lemma load_sort_selects_least_witness :
  (selectServiceInstance "pool" ["10.0.0.1"; "10.0.0.2"] [("10.0.0.2", MetricsFailed)]
     loaded_gateway).2 = Some "10.0.0.2".
Proof.
  destruct (load_sort_selects_least "pool" ["10.0.0.1"; "10.0.0.2"]
              [("10.0.0.2", MetricsFailed)] loaded_gateway
              [("10.0.0.1", Some {| requestsPerSecond := Some 30 |});
               ("10.0.0.2", Some {| requestsPerSecond := Some 5 |})]) as [_ H].
  - by vm_compute.
  - vm_compute. reflexivity.
  - vm_compute. reflexivity.
Defined.

(** ** The status endpoint *)

Lemma pingHandler_step (port : Z) (cfg : Config) (call : PingCall)
    (cache : HealthCheckCache) :
  cache_ok cache ->
  let '(cache', answer, probes) := pingHandler port cfg call cache in
  cache_ok cache'
  /\ answer <> PingOk None
  /\ (forall report, answer = PingOk (Some report) ->
        ping_now call - hr_timestamp report < 10000
        /\ (hr_timestamp report <> ping_now call -> probes = [] /\ cache' = cache)).
Proof.
  intros Hok. unfold pingHandler.
  destruct (truthy_time (cache_timestamp cache)
            && (ping_now call - toNumber (cache_timestamp cache) <? 10000)) eqn:Hfresh.
  - apply andb_true_iff in Hfresh as [Htruthy Hwindow].
    apply Z.ltb_lt in Hwindow.
    unfold cache_ok in Hok.
    destruct (cache_timestamp cache) as [t|] eqn:Ht; [|done].
    destruct (cache_results cache) as [cached|] eqn:Hr; [|done].
    simpl in Hwindow. split; [by unfold cache_ok; rewrite Ht, Hr|]. split; [done|].
    intros report [= <-]. rewrite Hok. split; [done|]. done.
  - destruct (circuitBreakers (ping_gateway call) !! "serviceA") as [breakerA|];
      [|by repeat split].
    destruct (circuitBreakers (ping_gateway call) !! "serviceB") as [breakerB|];
      [|by repeat split].
    split; [done|]. split; [done|].
    intros report [= <-]. simpl. split; [lia|done].
Qed.

(** X18. Calls of [GET /ping], whenever they come and whatever the gateway
    and the registry are then: a report that is sent is less than 10000 ms
    older than the call; a report with an older timestamp than the call
    comes from the cache, and then no instance is probed; and the answer is
    never an empty body. *)
Theorem ping_reports_fresh (port : Z) (cfg : Config) (calls : list PingCall) :
  Forall
    (fun entry : Z * PingAnswer * list string =>
       let '(now, answer, probes) := entry in
       answer <> PingOk None
       /\ forall report, answer = PingOk (Some report) ->
            now - hr_timestamp report < 10000
            /\ (hr_timestamp report <> now -> probes = []))
    (ping_all port cfg calls initial_cache).2.
Proof.
  assert (forall cache, cache_ok cache ->
            Forall
              (fun entry : Z * PingAnswer * list string =>
                 let '(now, answer, probes) := entry in
                 answer <> PingOk None
                 /\ forall report, answer = PingOk (Some report) ->
                      now - hr_timestamp report < 10000
                      /\ (hr_timestamp report <> now -> probes = []))
              (ping_all port cfg calls cache).2) as Hall.
  { induction calls as [|call rest IH]; intros cache Hok; simpl; [by constructor|].
    pose proof (pingHandler_step port cfg call cache Hok) as Hstep.
    destruct (pingHandler port cfg call cache) as [[cache1 answer] probes].
    destruct Hstep as (Hok1 & Hsome & Hfresh).
    specialize (IH cache1 Hok1).
    destruct (ping_all port cfg rest cache1) as [cache2 answers]. simpl in *.
    constructor; [|done]. split; [done|].
    intros report Hreport. destruct (Hfresh report Hreport) as [Hage Hold].
    split; [done|]. intros Hne. by destruct (Hold Hne). }
  apply Hall. by unfold cache_ok.
Qed.

(** X19. A report that [GET /ping] computes is repeated, without a probe
    and without reading the registry or the breakers, to every call that
    comes less than 10000 ms after it: a change of a breaker's state or of
    the registry inside that window does not show. *)
Theorem ping_memoized (port : Z) (cfg : Config) (first later : PingCall)
    (cache : HealthCheckCache) :
  cache_timestamp cache = None ->
  is_Some (circuitBreakers (ping_gateway first) !! "serviceA") ->
  is_Some (circuitBreakers (ping_gateway first) !! "serviceB") ->
  ping_now first <> 0 ->
  ping_now later - ping_now first < 10000 ->
  let '(cache1, answer1, _) := pingHandler port cfg first cache in
  pingHandler port cfg later cache1 = (cache1, answer1, []).
Proof.
  intros Hnone [bA HA] [bB HB] Hnow Hwindow.
  unfold pingHandler at 1. rewrite Hnone, HA, HB. simpl.
  unfold pingHandler. simpl.
  assert (negb (ping_now first =? 0)
          && (ping_now later - ping_now first <? 10000) = true) as ->; [|done].
  apply andb_true_iff. split.
  - apply negb_true_iff. by apply Z.eqb_neq.
  - by apply Z.ltb_lt.
Qed.

Lemma ping_memoized_witness :
  let '(cache1, answer1, _) :=
    pingHandler 8080 default_config (ping_call 1000 initial_gateway) initial_cache in
  pingHandler 8080 default_config (ping_call 5000 (open_since 1000)) cache1
  = (cache1, answer1, []).
Proof.
  apply (ping_memoized 8080 default_config (ping_call 1000 initial_gateway)
           (ping_call 5000 (open_since 1000)) initial_cache).
  - reflexivity.
  - apply initial_records. by left.
  - apply initial_records. by right.
  - simpl. lia.
  - simpl. lia.
Defined.

(** ** More on admission and accounting *)

Lemma finish_all_listeners (cfg : Config) (responses : list nat) (a : Admission) :
  (forall res, res ∈ finishListeners a -> res ∈ responses) ->
  finishListeners (run cfg (List.map Finish responses) a) = [].
Proof.
  unfold run. revert a.
  induction responses as [|r rest IH]; intros a Hall; simpl.
  - destruct (finishListeners a) as [|x xs]; [done|].
    specialize (Hall x). exfalso. apply (elem_of_nil x). apply Hall. by left.
  - apply IH. simpl. intros res Hres.
    apply list_elem_of_In, filter_In in Hres as [Hin Hne].
    apply list_elem_of_In in Hin. apply Hall in Hin.
    apply elem_of_cons in Hin as [->|Hin]; [|done].
    by rewrite bool_decide_eq_true_2 in Hne.
Qed.

(** X20. The limiter leaks nothing: whatever requests arrived and whichever
    responses finished so far, once the responses that are still pending
    have finished the counter is back at 0. *)
Theorem admission_drains (cfg : Config) (trace : list Event) :
  0 <= MAX_CONCURRENT_REQUESTS cfg ->
  let a := run cfg trace initial_admission in
  concurrentRequests (run cfg (List.map Finish (finishListeners a)) a) = 0.
Proof.
  intros Hmax a.
  assert (admission_inv cfg a) as Hinv.
  { apply run_preserves_inv. split; simpl; lia. }
  destruct (run_preserves_inv cfg (List.map Finish (finishListeners a)) a Hinv)
    as [Hcount _].
  rewrite Hcount, finish_all_listeners; done.
Qed.

Lemma admission_drains_witness :
  concurrentRequests
    (run default_config
       (List.map Finish
          (finishListeners
             (run default_config [Arrive 1; Arrive 2; Finish 1; Arrive 3]
                initial_admission)))
       (run default_config [Arrive 1; Arrive 2; Finish 1; Arrive 3] initial_admission))
  = 0.
Proof.
  apply (admission_drains default_config [Arrive 1; Arrive 2; Finish 1; Arrive 3]).
  simpl. lia.
Defined.

(** X21. A request that is answered has either made no call at all, and
    then its answer is 503, or it was forwarded once and exactly one of
    [recordSuccess] and [recordFailure] was called for its service, after
    the forward. *)
Theorem one_record_per_forward (cfg : Config) (serviceType : string) (req : Request)
    (w : World) (g : Gateway) (out : Outcome) :
  routeToService cfg serviceType req w g = Some out ->
  (calls out = [] /\ status_code (response out) = 503)
  \/ exists target,
       calls out = [Forward target; RecordSuccess ("service" +:+ serviceType)]
       \/ calls out = [Forward target; RecordFailure ("service" +:+ serviceType)].
Proof.
  intros Hroute.
  destruct (circuitBreakers g !! ("service" +:+ serviceType)) as [b|] eqn:Hb; cycle 1.
  { by rewrite routeToService_None in Hroute. }
  destruct (routeToService_routes cfg serviceType req w g b Hb) as (out' & Hout & HR).
  assert (out' = out) as -> by congruence.
  destruct HR as [_ ->|_ Hc Hs _ _|? ? ? _ _ tgt _ Hc _ _|? ? _ _ tgt _ Hc _ _].
  - by left.
  - by left.
  - right. exists tgt. by left.
  - right. exists tgt. by right.
Qed.

Lemma one_record_per_forward_witness :
  (calls (outcome_of (routeToService default_config "A" get_me
                        (world_replying 1000 TimedOut) one_instance)) = []
   /\ status_code
        (response (outcome_of (routeToService default_config "A" get_me
                                 (world_replying 1000 TimedOut) one_instance))) = 503)
  \/ exists target,
       calls (outcome_of (routeToService default_config "A" get_me
                            (world_replying 1000 TimedOut) one_instance))
       = [Forward target; RecordSuccess "serviceA"]
       \/ calls (outcome_of (routeToService default_config "A" get_me
                               (world_replying 1000 TimedOut) one_instance))
          = [Forward target; RecordFailure "serviceA"].
Proof.
  apply (one_record_per_forward default_config "A" get_me
           (world_replying 1000 TimedOut) one_instance).
  vm_compute. reflexivity.
Defined.

(** ** The limiter in front of the router *)




































